(** * Communications module: audience resolution and engagement tracking

    A shallow embedding of the Django application [communication]
    (models.py, permissions.py, signals.py, views.py) and the properties
    of its visibility predicates, its acknowledge / mark_viewed / rsvp
    actions and its analytics.

    Conventions of the embedding.
    - Primary keys are natural numbers; a many-to-many relation to users
      or groups is the finite set of the related keys ([gset nat]).
    - A [DateTimeField] and [timezone.now()] are integers counting
      seconds; a [DateField] is a day number and a [TimeField] the
      seconds elapsed since midnight, so that
      [datetime.combine d t = d * 86400 + t] and the calendar day of an
      instant [x] is [x / 86400].
    - The database is an explicit record threaded through every action;
      an action returns the HTTP status together with the new database.
    - Log tables are lists in insertion order.
    - A Python [float] is the rational number it denotes; every float
      operation rounds its exact result to binary64 (see [round64]). *)

From Stdlib Require Import ZArith QArith Qminmax Qpower Lia Lqa.
From stdpp Require Import base gmap sets list strings.
From Equations Require Import Equations.

Open Scope Z_scope.

#[local] Set Warnings "-clear-no-such-hyp".

(** ** Python floats

    The rates of models.py and views.py are computed with Python's
    [int / int] and [float * int], that is in IEEE 754 binary64 with
    rounding to nearest, ties to even.  A float is modelled by the
    rational it denotes, and an operation by the rounding of its exact
    result to 53 significant bits.  The exponent carries no bound: the
    quotient of two row counts and its product by 100 stay far inside
    the normal range of binary64, where neither overflow nor gradual
    underflow occurs. *)

(** The integer nearest to [q], the even one when there are two. *)
Definition round_half_even (q : Q) : Z :=
  let n := Qnum q in
  let d := Zpos (Qden q) in
  let f := n / d in
  let r := n mod d in
  if 2 * r <? d then f
  else if d <? 2 * r then f + 1
  else if Z.even f then f else f + 1.

(** The exponent [e] of the last place of a positive [x]:
    [2^52 <= x / 2^e < 2^53]. *)
Definition binade (x : Q) : Z :=
  let e0 := Z.log2 (Qnum x) - Z.log2 (Zpos (Qden x)) - 52 in
  if Qle_bool (2 ^ 52) (x / 2 ^ e0) then e0 else e0 - 1.

Definition round64_pos (x : Q) : Q :=
  let e := binade x in
  (inject_Z (round_half_even (x / 2 ^ e)) * 2 ^ e)%Q.

(** The binary64 number nearest to [x]. *)
Definition round64 (x : Q) : Q :=
  match Qnum x with
  | Z0 => 0%Q
  | Zpos _ => round64_pos x
  | Zneg _ => (- round64_pos (- x))%Q
  end.

(** [a / b] on two Python integers: the correctly rounded quotient. *)
Definition int_truediv (a b : Z) : Q := round64 (inject_Z a / inject_Z b).

(** [x * y] on floats (an integer operand is converted first, and 100
    converts exactly). *)
Definition float_mul (x y : Q) : Q := round64 (x * y).

(** ** models.py *)

Module User.
Record t := mk { is_staff : bool; is_active : bool }.
End User.

Module Group.
Record t := mk {
  group_type : string;
  members : gset nat;
  owners : gset nat;
  created_by : nat;
  is_active : bool
}.
End Group.

(** [qs.filter(members=user).exists()] on a many-to-many to [Group]:
    some group of the relation has the user among its members. *)
Definition has_member (groups : gmap nat Group.t) (uid gid : nat) : bool :=
  match groups !! gid with
  | Some g => bool_decide (uid ∈ Group.members g)
  | None => false
  end.

Definition groups_with_member (groups : gmap nat Group.t)
    (rel : gset nat) (uid : nat) : bool :=
  bool_decide (set_Exists (λ gid, has_member groups uid gid = true) rel).

Module Broadcast.
Record t := mk {
  start_date : Z;
  end_date : Z;
  audience_type : string;
  target_groups : gset nat;
  target_users : gset nat;
  acknowledged_by : gset nat;
  viewed_by : gset nat;
  send_email : bool;
  is_published : bool;
  is_active : bool;
  created_by : nat
}.

Definition is_visible (now : Z) (self : t) : bool :=
  (start_date self <=? now) && (now <=? end_date self)
    && is_published self && is_active self.

Definition total_recipients (users : gmap nat User.t)
    (groups : gmap nat Group.t) (self : t) : nat :=
  if String.eqb (audience_type self) "all" then
    size (filter (λ p, User.is_active p.2 = true) users)
  else if String.eqb (audience_type self) "groups" then
    size (filter (λ uid, groups_with_member groups (target_groups self) uid = true)
                 (dom users))
  else
    size (target_users self).

(** [(self.acknowledged_by.count() / total) * 100]: Python's true
    division of the two counts, then the float product with 100. *)
Definition acknowledgment_rate (users : gmap nat User.t)
    (groups : gmap nat Group.t) (self : t) : Q :=
  let total := total_recipients users groups self in
  if Nat.eqb total 0 then 0%Q
  else float_mul (int_truediv (Z.of_nat (size (acknowledged_by self)))
                              (Z.of_nat total)) 100.

Definition set_acknowledged_by (s : gset nat) (self : t) : t :=
  mk (start_date self) (end_date self) (audience_type self)
     (target_groups self) (target_users self) s (viewed_by self)
     (send_email self) (is_published self) (is_active self)
     (created_by self).

Definition set_viewed_by (s : gset nat) (self : t) : t :=
  mk (start_date self) (end_date self) (audience_type self)
     (target_groups self) (target_users self) (acknowledged_by self) s
     (send_email self) (is_published self) (is_active self)
     (created_by self).
End Broadcast.

Module Event.
Record t := mk {
  date : Z;
  time : Z;
  is_important : bool;
  is_active : bool;
  rsvp_yes : gset nat;
  rsvp_no : gset nat;
  rsvp_maybe : gset nat;
  visible_to_groups : gset nat;
  visible_to_users : gset nat;
  is_public : bool;
  created_by : nat
}.

Definition combine (d tm : Z) : Z := d * 86400 + tm.

Definition is_upcoming (now : Z) (self : t) : bool :=
  now <? combine (date self) (time self).

Definition get_user_rsvp_status (self : t) (uid : nat) : option string :=
  if bool_decide (uid ∈ rsvp_yes self) then Some "yes"%string
  else if bool_decide (uid ∈ rsvp_no self) then Some "no"%string
  else if bool_decide (uid ∈ rsvp_maybe self) then Some "maybe"%string
  else None.

Definition user_can_view (groups : gmap nat Group.t) (self : t)
    (uid : nat) : bool :=
  if is_public self then true
  else if bool_decide (created_by self = uid) then true
  else if bool_decide (uid ∈ visible_to_users self) then true
  else if groups_with_member groups (visible_to_groups self) uid then true
  else false.

Definition set_rsvp (y n m : gset nat) (self : t) : t :=
  mk (date self) (time self) (is_important self) (is_active self)
     y n m (visible_to_groups self) (visible_to_users self)
     (is_public self) (created_by self).

Definition total_rsvp_yes (self : t) : nat := size (rsvp_yes self).
Definition total_rsvp_no (self : t) : nat := size (rsvp_no self).
Definition total_rsvp_maybe (self : t) : nat := size (rsvp_maybe self).
Definition total_rsvp (self : t) : nat :=
  (total_rsvp_yes self + total_rsvp_no self + total_rsvp_maybe self)%nat.
End Event.

Module BroadcastView.
Record t := mk {
  broadcast : nat;
  user : nat;
  viewed_at : Z;
  ip_address : option string
}.
End BroadcastView.

Module EventRSVPLog.
Record t := mk {
  event : nat;
  user : nat;
  old_status : option string;
  new_status : string;
  changed_at : Z
}.
End EventRSVPLog.

(** The relational store. *)
Record DB := mkDB {
  users : gmap nat User.t;
  groups : gmap nat Group.t;
  broadcasts : gmap nat Broadcast.t;
  events : gmap nat Event.t;
  view_logs : list BroadcastView.t;
  rsvp_logs : list EventRSVPLog.t
}.

Definition set_broadcasts (bs : gmap nat Broadcast.t) (db : DB) : DB :=
  mkDB (users db) (groups db) bs (events db) (view_logs db) (rsvp_logs db).

Definition set_events (es : gmap nat Event.t) (db : DB) : DB :=
  mkDB (users db) (groups db) (broadcasts db) es (view_logs db) (rsvp_logs db).

Definition set_view_logs (l : list BroadcastView.t) (db : DB) : DB :=
  mkDB (users db) (groups db) (broadcasts db) (events db) l (rsvp_logs db).

Definition set_rsvp_logs (l : list EventRSVPLog.t) (db : DB) : DB :=
  mkDB (users db) (groups db) (broadcasts db) (events db) (view_logs db) l.

(** [request.user.is_staff] for an authenticated user. *)
Definition user_is_staff (db : DB) (uid : nat) : bool :=
  match users db !! uid with
  | Some u => User.is_staff u
  | None => false
  end.

(** ** The request and the response *)

Module Request.
Record t := mk {
  user : option nat;            (* None: AnonymousUser *)
  method : string;
  HTTP_X_FORWARDED_FOR : option string;
  REMOTE_ADDR : option string
}.
End Request.

Inductive Response :=
  | HTTP_200_OK
  | HTTP_400_BAD_REQUEST
  | HTTP_401_UNAUTHORIZED
  | HTTP_403_FORBIDDEN
  | HTTP_404_NOT_FOUND
  | HTTP_405_METHOD_NOT_ALLOWED.

#[global] Instance Response_eq_dec : EqDecision Response.
Proof. solve_decision. Defined.

Definition safe_method (m : string) : bool :=
  String.eqb m "GET" || String.eqb m "HEAD" || String.eqb m "OPTIONS".

(** ** permissions.py *)

Module IsAdminOrReadOnly.
Definition has_permission (db : DB) (request : Request.t) : bool :=
  match Request.user request with
  | None => false
  | Some uid =>
      if safe_method (Request.method request) then true
      else user_is_staff db uid
  end.

Definition has_object_permission (db : DB) (request : Request.t)
    (uid : nat) : bool :=
  if safe_method (Request.method request) then true
  else user_is_staff db uid.
End IsAdminOrReadOnly.

Module IsBroadcastOwnerOrAdmin.
Definition can_view_broadcast (db : DB) (now : Z) (uid : nat)
    (broadcast : Broadcast.t) : bool :=
  if negb (Broadcast.is_visible now broadcast) then false
  else if String.eqb (Broadcast.audience_type broadcast) "all" then true
  else if String.eqb (Broadcast.audience_type broadcast) "groups" then
    groups_with_member (groups db) (Broadcast.target_groups broadcast) uid
  else if String.eqb (Broadcast.audience_type broadcast) "users" then
    bool_decide (uid ∈ Broadcast.target_users broadcast)
  else false.

Definition has_object_permission (db : DB) (now : Z) (method : string)
    (uid : nat) (obj : Broadcast.t) : bool :=
  if safe_method method then can_view_broadcast db now uid obj
  else user_is_staff db uid || bool_decide (Broadcast.created_by obj = uid).
End IsBroadcastOwnerOrAdmin.

Module IsEventOwnerOrAdmin.
Definition has_object_permission (db : DB) (method : string)
    (uid : nat) (obj : Event.t) : bool :=
  if safe_method method then Event.user_can_view (groups db) obj uid
  else user_is_staff db uid || bool_decide (Event.created_by obj = uid).
End IsEventOwnerOrAdmin.

Module CanRSVPToEvent.
Definition has_object_permission (db : DB) (now : Z) (uid : nat)
    (obj : Event.t) : bool :=
  Event.user_can_view (groups db) obj uid && Event.is_upcoming now obj.
End CanRSVPToEvent.

Module CanAcknowledgeBroadcast.
Definition has_object_permission (db : DB) (now : Z) (uid : nat)
    (obj : Broadcast.t) : bool :=
  if negb (Broadcast.is_visible now obj) then false
  else if String.eqb (Broadcast.audience_type obj) "all" then true
  else if String.eqb (Broadcast.audience_type obj) "groups" then
    groups_with_member (groups db) (Broadcast.target_groups obj) uid
  else if String.eqb (Broadcast.audience_type obj) "users" then
    bool_decide (uid ∈ Broadcast.target_users obj)
  else false.
End CanAcknowledgeBroadcast.

(** ** signals.py *)

Definition EventRSVPLog_create (event user : nat) (old_status : option string)
    (new_status : string) (now : Z) (db : DB) : DB :=
  set_rsvp_logs
    (rsvp_logs db ++ [EventRSVPLog.mk event user old_status new_status now]) db.

(** [for user_id in pk_set: ...], on the ids in the order [ids] in which
    the set is visited. *)
Definition rsvp_changed_loop (status : string) (instance : nat) (now : Z)
    (ids : list nat) (db : DB) : DB :=
  foldl (λ d user_id,
           match users d !! user_id with
           | Some _ => EventRSVPLog_create instance user_id None status now d
           | None => d            (* except User.DoesNotExist: pass *)
           end) db ids.

(** The body shared by the three RSVP receivers: on [post_add] with a
    non-empty [pk_set], one log row per added user that exists, with
    [old_status=None].  Python fixes no order on the elements of a set:
    the receiver is read with the order of [elements], and what is
    proved about the rows of several ids holds up to their order. *)
Definition rsvp_changed (status : string) (instance : nat) (action : string)
    (pk_set : gset nat) (now : Z) (db : DB) : DB :=
  if String.eqb action "post_add" && negb (bool_decide (pk_set = ∅)) then
    rsvp_changed_loop status instance now (elements pk_set) db
  else db.

Definition event_rsvp_yes_changed := rsvp_changed "yes".
Definition event_rsvp_no_changed := rsvp_changed "no".
Definition event_rsvp_maybe_changed := rsvp_changed "maybe".

Definition broadcast_acknowledged (instance : nat) (action : string)
    (pk_set : gset nat) (db : DB) : DB :=
  if String.eqb action "post_add" then db else db.

(** ** The many-to-many managers, with the [m2m_changed] signal they send

    [add] sends [pre_add] and [post_add] with the keys that were missing
    from the relation, [remove] sends [pre_remove] and [post_remove] with
    the keys it was given. *)

Definition rsvp_yes_through (pk : nat) (f : gset nat → gset nat) (db : DB) : DB :=
  set_events
    (alter (λ e, Event.set_rsvp (f (Event.rsvp_yes e)) (Event.rsvp_no e)
                                (Event.rsvp_maybe e) e) pk (events db)) db.

Definition rsvp_no_through (pk : nat) (f : gset nat → gset nat) (db : DB) : DB :=
  set_events
    (alter (λ e, Event.set_rsvp (Event.rsvp_yes e) (f (Event.rsvp_no e))
                                (Event.rsvp_maybe e) e) pk (events db)) db.

Definition rsvp_maybe_through (pk : nat) (f : gset nat → gset nat) (db : DB) : DB :=
  set_events
    (alter (λ e, Event.set_rsvp (Event.rsvp_yes e) (Event.rsvp_no e)
                                (f (Event.rsvp_maybe e)) e) pk (events db)) db.

Definition related (sel : Event.t → gset nat) (pk : nat) (db : DB) : gset nat :=
  match events db !! pk with
  | Some e => sel e
  | None => ∅
  end.

Definition rsvp_yes_add (pk uid : nat) (now : Z) (db : DB) : DB :=
  let missing : gset nat := {[uid]} ∖ related Event.rsvp_yes pk db in
  let db := event_rsvp_yes_changed pk "pre_add" missing now db in
  let db := rsvp_yes_through pk (λ s, s ∪ missing) db in
  event_rsvp_yes_changed pk "post_add" missing now db.

Definition rsvp_no_add (pk uid : nat) (now : Z) (db : DB) : DB :=
  let missing : gset nat := {[uid]} ∖ related Event.rsvp_no pk db in
  let db := event_rsvp_no_changed pk "pre_add" missing now db in
  let db := rsvp_no_through pk (λ s, s ∪ missing) db in
  event_rsvp_no_changed pk "post_add" missing now db.

Definition rsvp_maybe_add (pk uid : nat) (now : Z) (db : DB) : DB :=
  let missing : gset nat := {[uid]} ∖ related Event.rsvp_maybe pk db in
  let db := event_rsvp_maybe_changed pk "pre_add" missing now db in
  let db := rsvp_maybe_through pk (λ s, s ∪ missing) db in
  event_rsvp_maybe_changed pk "post_add" missing now db.

Definition rsvp_yes_remove (pk uid : nat) (now : Z) (db : DB) : DB :=
  let db := event_rsvp_yes_changed pk "pre_remove" {[uid]} now db in
  let db := rsvp_yes_through pk (λ s, s ∖ {[uid]}) db in
  event_rsvp_yes_changed pk "post_remove" {[uid]} now db.

Definition rsvp_no_remove (pk uid : nat) (now : Z) (db : DB) : DB :=
  let db := event_rsvp_no_changed pk "pre_remove" {[uid]} now db in
  let db := rsvp_no_through pk (λ s, s ∖ {[uid]}) db in
  event_rsvp_no_changed pk "post_remove" {[uid]} now db.

Definition rsvp_maybe_remove (pk uid : nat) (now : Z) (db : DB) : DB :=
  let db := event_rsvp_maybe_changed pk "pre_remove" {[uid]} now db in
  let db := rsvp_maybe_through pk (λ s, s ∖ {[uid]}) db in
  event_rsvp_maybe_changed pk "post_remove" {[uid]} now db.

Definition acknowledged_by_through (pk : nat) (f : gset nat → gset nat)
    (db : DB) : DB :=
  set_broadcasts
    (alter (λ b, Broadcast.set_acknowledged_by (f (Broadcast.acknowledged_by b)) b)
           pk (broadcasts db)) db.

Definition acknowledged_by_add (pk uid : nat) (db : DB) : DB :=
  let missing : gset nat :=
    {[uid]} ∖ match broadcasts db !! pk with
              | Some b => Broadcast.acknowledged_by b
              | None => ∅
              end in
  let db := broadcast_acknowledged pk "pre_add" missing db in
  let db := acknowledged_by_through pk (λ s, s ∪ missing) db in
  broadcast_acknowledged pk "post_add" missing db.

Definition acknowledged_by_remove (pk uid : nat) (db : DB) : DB :=
  let db := broadcast_acknowledged pk "pre_remove" {[uid]} db in
  let db := acknowledged_by_through pk (λ s, s ∖ {[uid]}) db in
  broadcast_acknowledged pk "post_remove" {[uid]} db.

(** [viewed_by] has no receiver. *)
Definition viewed_by_add (pk uid : nat) (db : DB) : DB :=
  set_broadcasts
    (alter (λ b, Broadcast.set_viewed_by (Broadcast.viewed_by b ∪ {[uid]}) b)
           pk (broadcasts db)) db.

(** ** serializers.py: the two action serializers

    The request body is the value of the one field the serializer reads,
    [None] when the field is absent or of the wrong type. *)

Definition RSVPSerializer (data : option string) : option string :=
  match data with
  | Some s =>
      if String.eqb s "yes" || String.eqb s "no" || String.eqb s "maybe"
      then Some s else None
  | None => None
  end.

Definition BroadcastAcknowledgeSerializer (data : option bool) : option bool :=
  data.

(** ** views.py *)

(** [get_object]: the lookup in the filtered queryset (404 when absent),
    then the object permission of the action (403 when refused). *)
Definition get_object {A} (queryset : gmap nat A) (pk : nat)
    (has_object_permission : A → bool) : Response + A :=
  match queryset !! pk with
  | None => inl HTTP_404_NOT_FOUND
  | Some obj =>
      if has_object_permission obj then inr obj else inl HTTP_403_FORBIDDEN
  end.

Definition first_comma (s : string) : string :=
  match String.index 0 "," s with
  | Some n => String.substring 0 n s
  | None => s
  end.

Definition get_client_ip (request : Request.t) : option string :=
  match Request.HTTP_X_FORWARDED_FOR request with
  | Some x =>
      if String.eqb x "" then Request.REMOTE_ADDR request
      else Some (first_comma x)
  | None => Request.REMOTE_ADDR request
  end.

(** [BroadcastView.objects.get_or_create(broadcast=..., user=...,
    defaults={'ip_address': ...})].  The address is kept as the text the
    request gave; the [GenericIPAddressField] rewrites an IPv6 address
    in its canonical form when the row is saved, which nothing below
    depends on. *)
Definition BroadcastView_get_or_create (broadcast user : nat)
    (ip_address : option string) (now : Z) (db : DB) : DB :=
  if existsb (λ r, Nat.eqb (BroadcastView.broadcast r) broadcast
                   && Nat.eqb (BroadcastView.user r) user) (view_logs db)
  then db
  else set_view_logs
         (view_logs db ++ [BroadcastView.mk broadcast user now ip_address]) db.

(** One entry of [daily_views]: the day and the number of rows. *)
Record DailyCount := mkDailyCount { dc_date : Z; dc_count : nat }.

(** [while current_date <= end_date: ...append...; current_date += 1 day] *)
Equations? daily_loop (count_on : Z → nat) (current_date end_date : Z)
    (daily : list DailyCount) : list DailyCount
    by wf (Z.to_nat (end_date + 1 - current_date)) lt :=
  daily_loop count_on current_date end_date daily
    with decide (current_date <= end_date) => {
    | left _ =>
        daily_loop count_on (current_date + 1) end_date
          (daily ++ [mkDailyCount current_date (count_on current_date)]);
    | right _ => daily }.
Proof. lia. Qed.

Record BroadcastAnalytics := mkBroadcastAnalytics {
  ba_total_recipients : nat;
  ba_total_views : nat;
  ba_total_acknowledgments : nat;
  ba_acknowledgment_rate : Q;
  ba_view_rate : Q;
  ba_daily_views : list DailyCount;
  ba_daily_acknowledgments : list DailyCount
}.

Module BroadcastViewSet.
Definition queryset (db : DB) : gmap nat Broadcast.t :=
  filter (λ p, Broadcast.is_active p.2 = true) (broadcasts db).

Definition get_queryset (db : DB) (uid : nat) : gmap nat Broadcast.t :=
  if user_is_staff db uid then queryset db
  else
    filter (λ p,
      (String.eqb (Broadcast.audience_type p.2) "all"
       || (String.eqb (Broadcast.audience_type p.2) "groups"
           && groups_with_member (groups db) (Broadcast.target_groups p.2) uid)
       || (String.eqb (Broadcast.audience_type p.2) "users"
           && bool_decide (uid ∈ Broadcast.target_users p.2))
       || bool_decide (Broadcast.created_by p.2 = uid)) = true)
      (queryset db).

(** [@action(detail=True, methods=['post'],
             permission_classes=[CanAcknowledgeBroadcast])] *)
Definition acknowledge (request : Request.t) (pk : nat) (data : option bool)
    (now : Z) (db : DB) : Response * DB :=
  match Request.user request with
  | None => (HTTP_401_UNAUTHORIZED, db)
  | Some uid =>
    if negb (String.eqb (Request.method request) "POST")
    then (HTTP_405_METHOD_NOT_ALLOWED, db) else
    match get_object (get_queryset db uid) pk
            (CanAcknowledgeBroadcast.has_object_permission db now uid) with
    | inl r => (r, db)
    | inr broadcast =>
      match BroadcastAcknowledgeSerializer data with
      | Some acknowledged =>
          if acknowledged
          then (HTTP_200_OK, acknowledged_by_add pk uid db)
          else (HTTP_200_OK, acknowledged_by_remove pk uid db)
      | None => (HTTP_400_BAD_REQUEST, db)
      end
    end
  end.

(** [@action(detail=True, methods=['post'])]: the permission classes are
    the viewset's, [IsBroadcastOwnerOrAdmin]. *)
Definition mark_viewed (request : Request.t) (pk : nat) (now : Z) (db : DB)
    : Response * DB :=
  match Request.user request with
  | None => (HTTP_401_UNAUTHORIZED, db)
  | Some uid =>
    if negb (String.eqb (Request.method request) "POST")
    then (HTTP_405_METHOD_NOT_ALLOWED, db) else
    match get_object (get_queryset db uid) pk
            (IsBroadcastOwnerOrAdmin.has_object_permission db now
               (Request.method request) uid) with
    | inl r => (r, db)
    | inr broadcast =>
      if negb (bool_decide (uid ∈ Broadcast.viewed_by broadcast)) then
        let db := viewed_by_add pk uid db in
        let db := BroadcastView_get_or_create pk uid
                    (get_client_ip request) now db in
        (HTTP_200_OK, db)
      else (HTTP_200_OK, db)
    end
  end.

Definition views_count (db : DB) (pk : nat) (current_date : Z) : nat :=
  length (filter (λ r, BroadcastView.broadcast r = pk
                       ∧ BroadcastView.viewed_at r / 86400 = current_date)
                 (view_logs db)).

Definition daily_views (db : DB) (pk : nat) (now : Z) : list DailyCount :=
  let end_date := now / 86400 in
  let start_date := end_date - 30 in
  daily_loop (views_count db pk) start_date end_date [].

(** [@action(detail=True, methods=['get'],
             permission_classes=[IsAdminOrReadOnly])].
    The view checks [has_permission] before it looks for a handler of
    the method; the route binds [get], and [head] with it, to the
    action, and [options] answers with the metadata of the view.  An
    answer on the left carries no figures. *)
Definition analytics (request : Request.t) (pk : nat) (now : Z) (db : DB)
    : Response + BroadcastAnalytics :=
  match Request.user request with
  | None => inl HTTP_401_UNAUTHORIZED
  | Some uid =>
    if negb (IsAdminOrReadOnly.has_permission db request)
    then inl HTTP_403_FORBIDDEN else
    if String.eqb (Request.method request) "OPTIONS"
    then inl HTTP_200_OK else
    if negb (String.eqb (Request.method request) "GET"
             || String.eqb (Request.method request) "HEAD")
    then inl HTTP_405_METHOD_NOT_ALLOWED else
    match get_object (get_queryset db uid) pk
            (λ _, IsAdminOrReadOnly.has_object_permission db request uid) with
    | inl r => inl r
    | inr broadcast =>
      let total := Broadcast.total_recipients (users db) (groups db) broadcast in
      inr (mkBroadcastAnalytics
             total
             (size (Broadcast.viewed_by broadcast))
             (size (Broadcast.acknowledged_by broadcast))
             (Broadcast.acknowledgment_rate (users db) (groups db) broadcast)
             (if (0 <? total)%nat
              then float_mul
                     (int_truediv
                        (Z.of_nat (size (Broadcast.viewed_by broadcast)))
                        (Z.of_nat total)) 100
              else 0%Q)
             (daily_views db pk now)
             [])
    end
  end.
End BroadcastViewSet.

Module EventViewSet.
Definition queryset (db : DB) : gmap nat Event.t :=
  filter (λ p, Event.is_active p.2 = true) (events db).

Definition get_queryset (db : DB) (uid : nat) : gmap nat Event.t :=
  if user_is_staff db uid then queryset db
  else
    filter (λ p,
      (Event.is_public p.2
       || bool_decide (uid ∈ Event.visible_to_users p.2)
       || groups_with_member (groups db) (Event.visible_to_groups p.2) uid
       || bool_decide (Event.created_by p.2 = uid)) = true)
      (queryset db).

(** [@action(detail=True, methods=['post'],
             permission_classes=[CanRSVPToEvent])] *)
Definition rsvp (request : Request.t) (pk : nat) (data : option string)
    (now : Z) (db : DB) : Response * DB :=
  match Request.user request with
  | None => (HTTP_401_UNAUTHORIZED, db)
  | Some uid =>
    if negb (String.eqb (Request.method request) "POST")
    then (HTTP_405_METHOD_NOT_ALLOWED, db) else
    match get_object (get_queryset db uid) pk
            (CanRSVPToEvent.has_object_permission db now uid) with
    | inl r => (r, db)
    | inr event =>
      match RSVPSerializer data with
      | Some new_status =>
          let old_status := Event.get_user_rsvp_status event uid in
          (* Remove user from all RSVP lists first *)
          let db := rsvp_yes_remove pk uid now db in
          let db := rsvp_no_remove pk uid now db in
          let db := rsvp_maybe_remove pk uid now db in
          (* Add user to appropriate RSVP list *)
          let db :=
            if String.eqb new_status "yes" then rsvp_yes_add pk uid now db
            else if String.eqb new_status "no" then rsvp_no_add pk uid now db
            else if String.eqb new_status "maybe" then rsvp_maybe_add pk uid now db
            else db in
          (* Log RSVP change *)
          let db := EventRSVPLog_create pk uid old_status new_status now db in
          (HTTP_200_OK, db)
      | None => (HTTP_400_BAD_REQUEST, db)
      end
    end
  end.
End EventViewSet.

(** ** The specification's wording of two functions, for comparison *)

(** "0 when total_recipients = 0, else 100 * acknowledged_count /
    total_recipients, clamped to [0,100]". *)
Definition spec_acknowledgment_rate (acknowledged_count total_recipients : nat)
    : Q :=
  if Nat.eqb total_recipients 0 then 0%Q
  else Qmin 100 (Qmax 0 (100 * inject_Z (Z.of_nat acknowledged_count)
                         / inject_Z (Z.of_nat total_recipients)))%Q.

(** "live (now within [start,end), published, active) and (audience=all,
    or the user is a member of some target group, or the user is in
    target_users)". *)
Definition spec_can_view_broadcast (db : DB) (now : Z) (uid : nat)
    (broadcast : Broadcast.t) : bool :=
  ((Broadcast.start_date broadcast <=? now)
   && (now <? Broadcast.end_date broadcast)
   && Broadcast.is_published broadcast && Broadcast.is_active broadcast)
  && (String.eqb (Broadcast.audience_type broadcast) "all"
      || groups_with_member (groups db) (Broadcast.target_groups broadcast) uid
      || bool_decide (uid ∈ Broadcast.target_users broadcast)).

(** ** Runs of the rsvp action and the invariants of the store *)

Record RsvpCall := mkRsvpCall {
  call_request : Request.t;
  call_pk : nat;
  call_data : option string;
  call_now : Z
}.

Definition run_rsvp (calls : list RsvpCall) (db : DB) : DB :=
  foldl (λ d c, (EventViewSet.rsvp (call_request c) (call_pk c)
                   (call_data c) (call_now c) d).2) db calls.

(** A user is in at most one of the three RSVP sets of the event. *)
Definition rsvp_exclusive (e : Event.t) : Prop :=
  Event.rsvp_yes e ## Event.rsvp_no e
  ∧ Event.rsvp_yes e ## Event.rsvp_maybe e
  ∧ Event.rsvp_no e ## Event.rsvp_maybe e.

Definition db_rsvp_exclusive (db : DB) : Prop :=
  ∀ pk e, events db !! pk = Some e → rsvp_exclusive e.


(** The RSVP-log rows of an event. *)
Definition rsvp_rows (db : DB) (pk : nat) : list EventRSVPLog.t :=
  filter (λ r, EventRSVPLog.event r = pk) (rsvp_logs db).

(** ** Concrete stores *)

Definition member : User.t := User.mk false true.
Definition staff : User.t := User.mk true true.

Definition post (uid : nat) : Request.t :=
  Request.mk (Some uid) "POST" None (Some "10.0.0.1"%string).

(** Users 1 and 2 are ordinary members, user 9 is staff. *)
Definition some_users : gmap nat User.t :=
  {[ 1%nat := member; 2%nat := member; 9%nat := staff ]}.

(** A public event on day 10 at midnight, created by the staff user. *)
Definition party : Event.t :=
  Event.mk 10 0 false true ∅ ∅ ∅ ∅ ∅ true 9%nat.

Definition party_db : DB :=
  mkDB some_users ∅ ∅ {[ 5%nat := party ]} [] [].

(** An event that is not public, created by user 1, visible to nobody
    else. *)
Definition private_event : Event.t :=
  Event.mk 10 0 false true ∅ ∅ ∅ ∅ ∅ false 1%nat.

(** A broadcast of user 1 that is not published yet. *)
Definition draft : Broadcast.t :=
  Broadcast.mk 0 100 "all" ∅ ∅ ∅ ∅ false false true 1%nat.

Definition draft_db : DB :=
  mkDB some_users ∅ {[ 3%nat := draft ]} {[ 6%nat := private_event ]} [] [].

(** A published broadcast to everybody, live on [0, 100]. *)
Definition notice : Broadcast.t :=
  Broadcast.mk 0 100 "all" ∅ ∅ ∅ ∅ false true true 9%nat.

(** A published broadcast with audience "groups" and no target group,
    whose target_users nevertheless holds user 1. *)
Definition group_notice : Broadcast.t :=
  Broadcast.mk 0 100 "groups" ∅ {[ 1%nat ]} ∅ ∅ false true true 9%nat.

Definition notice_db : DB :=
  mkDB some_users ∅ {[ 3%nat := notice; 4%nat := group_notice ]} ∅ [] [].

(** A broadcast to user 1 alone that users 1 and 2 have acknowledged. *)
Definition narrowed : Broadcast.t :=
  Broadcast.mk 0 100 "users" ∅ {[ 1%nat ]} {[ 1%nat; 2%nat ]} ∅
               false true true 9%nat.

Definition narrowed_db : DB :=
  mkDB some_users ∅ {[ 7%nat := narrowed ]} ∅ [] [].

(** A broadcast to everybody that users 1 and 2 have acknowledged. *)
Definition two_of_three : Broadcast.t :=
  Broadcast.mk 0 100 "all" ∅ ∅ {[ 1%nat; 2%nat ]} ∅ false true true 9%nat.



(** User 1 answers "yes" at time 100 and "maybe" at time 200. *)
Definition yes_then_maybe : list RsvpCall :=
  [ mkRsvpCall (post 1) 5 (Some "yes"%string) 100;
    mkRsvpCall (post 1) 5 (Some "maybe"%string) 200 ].

(** ** Further parts of the application

    The remaining permission classes, the group and media viewsets, the
    list actions and analytics of the event viewset, and the filter
    methods of filters.py. *)

Definition set_groups (gs : gmap nat Group.t) (db : DB) : DB :=
  mkDB (users db) gs (broadcasts db) (events db) (view_logs db) (rsvp_logs db).

Definition set_group_members (s : gset nat) (g : Group.t) : Group.t :=
  Group.mk (Group.group_type g) s (Group.owners g) (Group.created_by g)
           (Group.is_active g).

Module IsGroupOwnerOrAdmin.
Definition has_object_permission (db : DB) (method : string) (uid : nat)
    (obj : Group.t) : bool :=
  if safe_method method then
    String.eqb (Group.group_type obj) "public"
    || bool_decide (uid ∈ Group.members obj)
    || bool_decide (uid ∈ Group.owners obj)
    || user_is_staff db uid
  else
    bool_decide (uid ∈ Group.owners obj) || user_is_staff db uid.
End IsGroupOwnerOrAdmin.

Module GroupViewSet.
Definition queryset (db : DB) : gmap nat Group.t :=
  filter (λ p, Group.is_active p.2 = true) (groups db).

Definition get_queryset (db : DB) (uid : nat) : gmap nat Group.t :=
  if user_is_staff db uid then queryset db
  else
    filter (λ p,
      (String.eqb (Group.group_type p.2) "public"
       || bool_decide (uid ∈ Group.members p.2)
       || bool_decide (uid ∈ Group.owners p.2)
       || bool_decide (Group.created_by p.2 = uid)) = true)
      (queryset db).

(** [group.members.add(user)] and [group.members.remove(user)]; no
    receiver listens to this relation. *)
Definition members_add (pk uid : nat) (db : DB) : DB :=
  set_groups
    (alter (λ g, set_group_members (Group.members g ∪ {[uid]}) g) pk
           (groups db)) db.

Definition members_remove (pk uid : nat) (db : DB) : DB :=
  set_groups
    (alter (λ g, set_group_members (Group.members g ∖ {[uid]}) g) pk
           (groups db)) db.

(** [@action(detail=True, methods=['post'])], under the viewset's
    [IsGroupOwnerOrAdmin]. *)
Definition join (request : Request.t) (pk : nat) (db : DB) : Response * DB :=
  match Request.user request with
  | None => (HTTP_401_UNAUTHORIZED, db)
  | Some uid =>
    if negb (String.eqb (Request.method request) "POST")
    then (HTTP_405_METHOD_NOT_ALLOWED, db) else
    match get_object (get_queryset db uid) pk
            (IsGroupOwnerOrAdmin.has_object_permission db
               (Request.method request) uid) with
    | inl r => (r, db)
    | inr group =>
      if negb (String.eqb (Group.group_type group) "public")
      then (HTTP_400_BAD_REQUEST, db)
      else (HTTP_200_OK, members_add pk uid db)
    end
  end.

Definition leave (request : Request.t) (pk : nat) (db : DB) : Response * DB :=
  match Request.user request with
  | None => (HTTP_401_UNAUTHORIZED, db)
  | Some uid =>
    if negb (String.eqb (Request.method request) "POST")
    then (HTTP_405_METHOD_NOT_ALLOWED, db) else
    match get_object (get_queryset db uid) pk
            (IsGroupOwnerOrAdmin.has_object_permission db
               (Request.method request) uid) with
    | inl r => (r, db)
    | inr group => (HTTP_200_OK, members_remove pk uid db)
    end
  end.
End GroupViewSet.

Module Media.
Record t := mk {
  file_name : string;
  file_type : string;
  file_size : nat;
  uploaded_by : nat
}.
End Media.

Module IsMediaOwnerOrAdmin.
Definition has_object_permission (db : DB) (method : string) (uid : nat)
    (obj : Media.t) : bool :=
  if safe_method method then true
  else user_is_staff db uid || bool_decide (Media.uploaded_by obj = uid).
End IsMediaOwnerOrAdmin.

(** The media table is not referenced by the other tables of the store;
    the media viewset takes it as a separate argument. *)
Module MediaViewSet.
Definition get_queryset (media : gmap nat Media.t) (db : DB) (uid : nat)
    : gmap nat Media.t :=
  if user_is_staff db uid then media
  else filter (λ p, Media.uploaded_by p.2 = uid) media.
End MediaViewSet.

(** *** The other actions of the event viewset *)

(** [upcoming]: [get_queryset().filter(date__gte=timezone.now().date())]. *)
Definition EventViewSet_upcoming (db : DB) (uid : nat) (now : Z)
    : gmap nat Event.t :=
  filter (λ p, now / 86400 <= Event.date p.2) (EventViewSet.get_queryset db uid).

(** [get_total_visible_users]: the two loops that fill the Python set
    [visible_users], then its length. *)
Definition EventViewSet_get_total_visible_users (db : DB) (event : Event.t)
    : nat :=
  if Event.is_public event then
    size (filter (λ p, User.is_active p.2 = true) (users db))
  else
    let visible_users : gset nat :=
      set_fold (λ user acc, acc ∪ {[user]}) ∅ (Event.visible_to_users event) in
    let visible_users : gset nat :=
      set_fold (λ group acc,
                  match groups db !! group with
                  | Some g =>
                      set_fold (λ user acc', acc' ∪ {[user]}) acc
                               (Group.members g)
                  | None => acc
                  end) visible_users (Event.visible_to_groups event) in
    size visible_users.

Definition rsvp_count (db : DB) (pk : nat) (current_date : Z) : nat :=
  length (filter (λ r, EventRSVPLog.event r = pk
                       ∧ EventRSVPLog.changed_at r / 86400 = current_date)
                 (rsvp_logs db)).

Definition EventViewSet_daily_rsvp (db : DB) (pk : nat) (now : Z)
    : list DailyCount :=
  let end_date := now / 86400 in
  let start_date := end_date - 30 in
  daily_loop (rsvp_count db pk) start_date end_date [].

Record EventAnalytics := mkEventAnalytics {
  ea_total_rsvp_yes : nat;
  ea_total_rsvp_no : nat;
  ea_total_rsvp_maybe : nat;
  ea_total_rsvp : nat;
  ea_rsvp_rate : Q;
  ea_daily_rsvp : list DailyCount
}.

(** [@action(detail=True, methods=['get'],
             permission_classes=[IsAdminOrReadOnly])], with the same
    order of checks as the analytics of a broadcast. *)
Definition EventViewSet_analytics (request : Request.t) (pk : nat) (now : Z)
    (db : DB) : Response + EventAnalytics :=
  match Request.user request with
  | None => inl HTTP_401_UNAUTHORIZED
  | Some uid =>
    if negb (IsAdminOrReadOnly.has_permission db request)
    then inl HTTP_403_FORBIDDEN else
    if String.eqb (Request.method request) "OPTIONS"
    then inl HTTP_200_OK else
    if negb (String.eqb (Request.method request) "GET"
             || String.eqb (Request.method request) "HEAD")
    then inl HTTP_405_METHOD_NOT_ALLOWED else
    match get_object (EventViewSet.get_queryset db uid) pk
            (λ _, IsAdminOrReadOnly.has_object_permission db request uid) with
    | inl r => inl r
    | inr event =>
      let total_visible_users :=
        EventViewSet_get_total_visible_users db event in
      inr (mkEventAnalytics
             (Event.total_rsvp_yes event)
             (Event.total_rsvp_no event)
             (Event.total_rsvp_maybe event)
             (Event.total_rsvp event)
             (if (0 <? total_visible_users)%nat
              then float_mul
                     (int_truediv (Z.of_nat (Event.total_rsvp event))
                                  (Z.of_nat total_visible_users)) 100
              else 0%Q)
             (EventViewSet_daily_rsvp db pk now))
    end
  end.

(** *** filters.py *)

Definition BroadcastFilter_filter_is_active (now : Z)
    (queryset : gmap nat Broadcast.t) (value : bool)
    : gmap nat Broadcast.t :=
  if value then
    filter (λ p, Broadcast.start_date p.2 <= now
                 ∧ now <= Broadcast.end_date p.2
                 ∧ Broadcast.is_published p.2 = true
                 ∧ Broadcast.is_active p.2 = true) queryset
  else
    filter (λ p, ¬ (Broadcast.start_date p.2 <= now
                    ∧ now <= Broadcast.end_date p.2
                    ∧ Broadcast.is_published p.2 = true
                    ∧ Broadcast.is_active p.2 = true)) queryset.

Definition EventFilter_filter_upcoming (now : Z)
    (queryset : gmap nat Event.t) (value : bool) : gmap nat Event.t :=
  if value then filter (λ p, now / 86400 <= Event.date p.2) queryset
  else filter (λ p, Event.date p.2 < now / 86400) queryset.

Definition EventFilter_filter_rsvp_status (user : option nat)
    (queryset : gmap nat Event.t) (value : string) : gmap nat Event.t :=
  match user with
  | None => ∅
  | Some uid =>
    if String.eqb value "yes" then
      filter (λ p, uid ∈ Event.rsvp_yes p.2) queryset
    else if String.eqb value "no" then
      filter (λ p, uid ∈ Event.rsvp_no p.2) queryset
    else if String.eqb value "maybe" then
      filter (λ p, uid ∈ Event.rsvp_maybe p.2) queryset
    else queryset
  end.

(** *** Further concrete stores *)

Definition team : Group.t :=
  Group.mk "public" {[ 1%nat ]} {[ 2%nat ]} 9%nat true.

Definition team_db : DB :=
  mkDB some_users {[ 4%nat := team ]} ∅ ∅ [] [].

Definition get (uid : nat) : Request.t :=
  Request.mk (Some uid) "GET" None (Some "10.0.0.1"%string).

(** A broadcast addressed to user 1 alone, not acknowledged yet. *)
Definition memo : Broadcast.t :=
  Broadcast.mk 0 100 "users" ∅ {[ 1%nat ]} ∅ ∅ false true true 9%nat.

Definition memo_db : DB :=
  mkDB some_users ∅ {[ 8%nat := memo ]} ∅ [] [].

(** The public event after user 1 has answered "maybe". *)
Definition answered : Event.t :=
  Event.mk 10 0 false true ∅ ∅ {[ 1%nat ]} ∅ ∅ true 9%nat.

Definition answered_db : DB :=
  mkDB some_users ∅ ∅ {[ 5%nat := answered ]} [] [].

(** An event of user 1 shown to user 2 and to the members of group 4. *)
Definition invited : Event.t :=
  Event.mk 10 0 false true ∅ ∅ ∅ {[ 4%nat ]} {[ 2%nat ]} false 1%nat.

Definition invited_db : DB :=
  mkDB some_users {[ 4%nat := team ]} ∅ {[ 6%nat := invited ]} [] [].

(** A private group owned by user 2, created by user 1. *)
Definition board : Group.t :=
  Group.mk "private" ∅ {[ 2%nat ]} 1%nat true.

Definition board_db : DB :=
  mkDB some_users {[ 4%nat := board ]} ∅ ∅ [] [].

Definition photo : Media.t := Media.mk "a.png" "image" 10 1%nat.

Definition photos : gmap nat Media.t := {[ 1%nat := photo ]}.

Definition forwarded : Request.t :=
  Request.mk (Some 1%nat) "POST" (Some "10.1.1.1, 10.2.2.2"%string)
             (Some "10.0.0.1"%string).

(** * Properties *)

(** ** Helper lemmas *)

Lemma groups_with_member_true (gs : gmap nat Group.t) (rel : gset nat)
    (uid : nat) :
  groups_with_member gs rel uid = true
  ↔ ∃ gid g, gid ∈ rel ∧ gs !! gid = Some g ∧ uid ∈ Group.members g.
Proof.
  unfold groups_with_member. rewrite bool_decide_eq_true.
  unfold set_Exists, has_member. split.
  - intros (gid & Hin & Hm). destruct (gs !! gid) as [g|] eqn:E; [|done].
    apply bool_decide_eq_true in Hm. eauto.
  - intros (gid & g & Hin & E & Hm). exists gid. rewrite E.
    split; [done|]. by apply bool_decide_eq_true.
Qed.

Lemma daily_loop_seqZ (count_on : Z → nat) (c e : Z)
    (acc : list DailyCount) :
  daily_loop count_on c e acc
  = acc ++ ((λ d, mkDailyCount d (count_on d)) <$> seqZ c (e + 1 - c)).
Proof.
  funelim (daily_loop count_on c e acc).
  - rewrite H, <- app_assoc. f_equal.
    rewrite (seqZ_cons current_date) by lia. simpl.
    do 3 f_equal; lia.
  - rewrite seqZ_nil by lia. simpl. by rewrite app_nil_r.
Qed.

(** ** Rounding to binary64 *)

Lemma round_half_even_Z (n d : Z) :
  0 < d →
  let f := n / d in
  let r := n mod d in
  let m := if 2 * r <? d then f
           else if d <? 2 * r then f + 1
           else if Z.even f then f else f + 1 in
  2 * (m * d) - d <= 2 * n <= 2 * (m * d) + d
  ∧ (∀ k, n <= k * d → m <= k)
  ∧ (∀ k, k * d <= n → k <= m).
Proof.
  intros Hd f r m.
  pose proof (Z.div_mod n d ltac:(lia)) as Hn.
  pose proof (Z.mod_pos_bound n d Hd) as Hr.
  fold f r in Hn, Hr. subst m.
  destruct (Z.ltb_spec (2 * r) d); [|destruct (Z.ltb_spec d (2 * r));
    [|destruct (Z.even f)]]; (split; [nia|split; intros k Hk; nia]).
Qed.

Lemma Qmake_div (q : Q) :
  (q == inject_Z (Qnum q) / inject_Z (Zpos (Qden q)))%Q.
Proof. destruct q as [n d]. simpl. apply Qmake_Qdiv. Qed.

Lemma round_half_even_le (q : Q) (k : Z) :
  (q <= inject_Z k)%Q → round_half_even q <= k.
Proof.
  intros H. unfold Qle in H. simpl in H.
  apply (round_half_even_Z (Qnum q) (Zpos (Qden q)) ltac:(lia)). lia.
Qed.

Lemma round_half_even_ge (q : Q) (k : Z) :
  (inject_Z k <= q)%Q → k <= round_half_even q.
Proof.
  intros H. unfold Qle in H. simpl in H.
  apply (round_half_even_Z (Qnum q) (Zpos (Qden q)) ltac:(lia)). lia.
Qed.

Lemma round_half_even_near (q : Q) :
  (inject_Z (round_half_even q) - (1 # 2) <= q)%Q
  ∧ (q <= inject_Z (round_half_even q) + (1 # 2))%Q.
Proof.
  destruct (round_half_even_Z (Qnum q) (Zpos (Qden q)) ltac:(lia))
    as ([H1 H2] & _).
  fold (round_half_even q) in H1, H2.
  set (m := round_half_even q) in *.
  destruct q as [n d]. simpl in *.
  unfold Qle, Qminus, Qplus, Qopp, inject_Z. simpl. lia.
Qed.

Lemma pow2_pos (e : Z) : (0 < 2 ^ e)%Q.
Proof. by apply Qpower_0_lt. Qed.

Lemma pow2_plus (a b : Z) : (2 ^ (a + b) == 2 ^ a * 2 ^ b)%Q.
Proof. by apply Qpower_plus. Qed.

Lemma pow2_le (a b : Z) : a <= b → (2 ^ a <= 2 ^ b)%Q.
Proof. intros H. by apply Qpower_le_compat_l. Qed.

Lemma pow2_lt_inv (a b : Z) : (2 ^ a < 2 ^ b)%Q → a < b.
Proof. intros H. by apply (Qpower_lt_compat_l_inv 2). Qed.

Lemma pow2_inject (n : Z) : 0 <= n → (inject_Z (2 ^ n) == 2 ^ n)%Q.
Proof. intros H. by rewrite Zpower_Qpower. Qed.

Lemma binade_spec (x : Q) :
  (0 < x)%Q →
  (2 ^ (52 + binade x) <= x)%Q ∧ (x < 2 ^ (53 + binade x))%Q.
Proof.
  intros Hx.
  assert (Hn : 0 < Qnum x) by (unfold Qlt in Hx; simpl in Hx; lia).
  set (ln := Z.log2 (Qnum x)). set (ld := Z.log2 (Zpos (Qden x))).
  assert (Hln : 0 <= ln) by apply Z.log2_nonneg.
  assert (Hld : 0 <= ld) by apply Z.log2_nonneg.
  destruct (Z.log2_spec (Qnum x) Hn) as [Hn1 Hn2]. fold ln in Hn1, Hn2.
  destruct (Z.log2_spec (Zpos (Qden x)) ltac:(lia)) as [Hd1 Hd2].
  fold ld in Hd1, Hd2.
  set (N := inject_Z (Qnum x)). set (D := inject_Z (Zpos (Qden x))).
  assert (HD : (0 < D)%Q) by (unfold D, Qlt; simpl; lia).
  assert (Ex : (x == N / D)%Q) by apply Qmake_div.
  assert (QN1 : (2 ^ ln <= N)%Q)
    by (rewrite <- pow2_inject by done; unfold N; by rewrite <- Zle_Qle).
  assert (QN2 : (N < 2 ^ (ln + 1))%Q)
    by (rewrite <- pow2_inject by lia; unfold N; by rewrite <- Zlt_Qlt).
  assert (QD1 : (2 ^ ld <= D)%Q)
    by (rewrite <- pow2_inject by done; unfold D; by rewrite <- Zle_Qle).
  assert (QD2 : (D < 2 ^ (ld + 1))%Q)
    by (rewrite <- pow2_inject by lia; unfold D; by rewrite <- Zlt_Qlt).
  set (e0 := ln - ld - 52).
  assert (Hlo : (2 ^ (51 + e0) < x)%Q).
  { rewrite Ex. apply Qlt_shift_div_l; [done|].
    apply Qlt_le_trans with (2 ^ (51 + e0) * 2 ^ (ld + 1))%Q.
    - apply Qmult_lt_l; [apply pow2_pos | done].
    - rewrite <- pow2_plus.
      replace (51 + e0 + (ld + 1)) with ln by (unfold e0; lia). done. }
  assert (Hhi : (x < 2 ^ (53 + e0))%Q).
  { rewrite Ex. apply Qlt_shift_div_r; [done|].
    apply Qlt_le_trans with (2 ^ (ln + 1))%Q; [done|].
    replace (ln + 1) with (53 + e0 + ld) by (unfold e0; lia).
    rewrite pow2_plus. apply Qmult_le_l; [apply pow2_pos | done]. }
  unfold binade. fold ln ld e0.
  destruct (Qle_bool (2 ^ 52) (x / 2 ^ e0)) eqn:E.
  - apply Qle_bool_iff in E. split; [|done].
    rewrite pow2_plus.
    apply (Qmult_le_r _ _ (2 ^ e0)) in E; [|apply pow2_pos].
    assert (Ee : (x / 2 ^ e0 * 2 ^ e0 == x)%Q)
      by (field; apply Qnot_eq_sym, Qlt_not_eq, pow2_pos).
    by rewrite Ee in E.
  - assert (E' : ¬ (2 ^ 52 <= x / 2 ^ e0)%Q)
      by (intros H; apply Qle_bool_iff in H; congruence).
    apply Qnot_le_lt in E'.
    replace (52 + (e0 - 1)) with (51 + e0) by lia.
    replace (53 + (e0 - 1)) with (52 + e0) by lia.
    split; [by apply Qlt_le_weak|].
    rewrite pow2_plus.
    apply (Qmult_lt_r _ _ (2 ^ e0)) in E'; [|apply pow2_pos].
    assert (Ee : (x / 2 ^ e0 * 2 ^ e0 == x)%Q)
      by (field; apply Qnot_eq_sym, Qlt_not_eq, pow2_pos).
    by rewrite Ee in E'.
Qed.

Lemma unscale (x : Q) (e : Z) : (x / 2 ^ e * 2 ^ e == x)%Q.
Proof. field. apply Qnot_eq_sym, Qlt_not_eq, pow2_pos. Qed.

Lemma scaled_bounds (x : Q) :
  (0 < x)%Q →
  (2 ^ 52 <= x / 2 ^ binade x)%Q ∧ (x / 2 ^ binade x < 2 ^ 53)%Q.
Proof.
  intros Hx. destruct (binade_spec x Hx) as [H1 H2].
  rewrite pow2_plus in H1, H2. split.
  - apply Qle_shift_div_l; [apply pow2_pos | done].
  - apply Qlt_shift_div_r; [apply pow2_pos | done].
Qed.

Lemma significand_bounds (x : Q) :
  (0 < x)%Q →
  2 ^ 52 <= round_half_even (x / 2 ^ binade x) <= 2 ^ 53.
Proof.
  intros Hx. destruct (scaled_bounds x Hx) as [H1 H2]. split.
  - apply round_half_even_ge. by rewrite pow2_inject.
  - apply round_half_even_le. rewrite pow2_inject by done.
    by apply Qlt_le_weak.
Qed.

Lemma round64_pos_pos (x : Q) : (0 < x)%Q → (0 < round64_pos x)%Q.
Proof.
  intros Hx. unfold round64_pos.
  apply Qmult_lt_0_compat; [|apply pow2_pos].
  destruct (significand_bounds x Hx) as [H _].
  change 0%Q with (inject_Z 0). rewrite <- Zlt_Qlt. lia.
Qed.

(** Rounding never crosses a representable number [k * 2^j]. *)
Lemma round64_pos_le (x : Q) (k j : Z) :
  (0 < x)%Q → 2 ^ 52 <= k < 2 ^ 53 →
  (x <= inject_Z k * 2 ^ j)%Q →
  (round64_pos x <= inject_Z k * 2 ^ j)%Q.
Proof.
  intros Hx [Hk1 Hk2] Hle.
  destruct (binade_spec x Hx) as [B1 B2].
  destruct (scaled_bounds x Hx) as [S1 S2].
  destruct (significand_bounds x Hx) as [M1 M2].
  unfold round64_pos.
  set (e := binade x) in *. set (m := round_half_even (x / 2 ^ e)) in *.
  assert (Qk1 : (2 ^ 52 <= inject_Z k)%Q)
    by (rewrite <- pow2_inject by done; by rewrite <- Zle_Qle).
  assert (Qk2 : (inject_Z k < 2 ^ 53)%Q)
    by (rewrite <- pow2_inject by done; by rewrite <- Zlt_Qlt).
  assert (Hej : e <= j).
  { assert (e < j + 1); [|lia]. apply pow2_lt_inv.
    apply (Qmult_lt_l _ _ (2 ^ 52)); [apply pow2_pos|].
    rewrite <- !pow2_plus.
    apply Qle_lt_trans with x; [done|].
    apply Qle_lt_trans with (inject_Z k * 2 ^ j)%Q; [done|].
    replace (52 + (j + 1)) with (53 + j) by lia. rewrite pow2_plus.
    apply Qmult_lt_r; [apply pow2_pos | done]. }
  destruct (decide (e = j)) as [->|Hne].
  - apply Qmult_le_r; [apply pow2_pos|]. rewrite <- Zle_Qle.
    apply round_half_even_le.
    apply Qle_shift_div_r; [apply pow2_pos | done].
  - apply Qle_trans with (2 ^ 53 * 2 ^ e)%Q.
    + apply Qmult_le_r; [apply pow2_pos|].
      rewrite <- pow2_inject by done. by rewrite <- Zle_Qle.
    + apply Qle_trans with (2 ^ 52 * 2 ^ j)%Q.
      * rewrite <- !pow2_plus. apply pow2_le. lia.
      * apply Qmult_le_r; [apply pow2_pos | done].
Qed.

Lemma round64_pos_ge (x : Q) (k j : Z) :
  (0 < x)%Q → 2 ^ 52 <= k < 2 ^ 53 →
  (inject_Z k * 2 ^ j <= x)%Q →
  (inject_Z k * 2 ^ j <= round64_pos x)%Q.
Proof.
  intros Hx [Hk1 Hk2] Hle.
  destruct (binade_spec x Hx) as [B1 B2].
  destruct (scaled_bounds x Hx) as [S1 S2].
  destruct (significand_bounds x Hx) as [M1 M2].
  unfold round64_pos.
  set (e := binade x) in *. set (m := round_half_even (x / 2 ^ e)) in *.
  assert (Qk1 : (2 ^ 52 <= inject_Z k)%Q)
    by (rewrite <- pow2_inject by done; by rewrite <- Zle_Qle).
  assert (Qk2 : (inject_Z k < 2 ^ 53)%Q)
    by (rewrite <- pow2_inject by done; by rewrite <- Zlt_Qlt).
  assert (Hej : j <= e).
  { assert (j < e + 1); [|lia]. apply pow2_lt_inv.
    apply (Qmult_lt_l _ _ (2 ^ 52)); [apply pow2_pos|].
    rewrite <- !pow2_plus.
    apply Qle_lt_trans with (inject_Z k * 2 ^ j)%Q.
    - rewrite pow2_plus. apply Qmult_le_r; [apply pow2_pos | done].
    - apply Qle_lt_trans with x; [done|].
      by replace (52 + (e + 1)) with (53 + e) by lia. }
  destruct (decide (e = j)) as [->|Hne].
  - apply Qmult_le_r; [apply pow2_pos|]. rewrite <- Zle_Qle.
    apply round_half_even_ge.
    apply Qle_shift_div_l; [apply pow2_pos | done].
  - apply Qle_trans with (2 ^ 53 * 2 ^ j)%Q.
    + apply Qmult_le_r; [apply pow2_pos|]. by apply Qlt_le_weak.
    + apply Qle_trans with (2 ^ 52 * 2 ^ e)%Q.
      * rewrite <- !pow2_plus. apply pow2_le. lia.
      * apply Qmult_le_r; [apply pow2_pos|].
        rewrite <- pow2_inject by done. by rewrite <- Zle_Qle.
Qed.

(** The relative error of one rounding is at most 2^-53. *)
Lemma round64_pos_near (x : Q) :
  (0 < x)%Q →
  (x * (1 - 2 ^ (-53)) <= round64_pos x)%Q
  ∧ (round64_pos x <= x * (1 + 2 ^ (-53)))%Q.
Proof.
  intros Hx.
  destruct (binade_spec x Hx) as [B1 _].
  unfold round64_pos. set (e := binade x) in *.
  destruct (round_half_even_near (x / 2 ^ e)) as [N1 N2].
  set (m := inject_Z (round_half_even (x / 2 ^ e))) in *.
  assert (Hp : (0 < 2 ^ e)%Q) by apply pow2_pos.
  assert (Hu : (2 ^ e * (1 # 2) <= x * 2 ^ (-53))%Q).
  { apply Qle_trans with (2 ^ (52 + e) * 2 ^ (-53))%Q.
    - rewrite <- pow2_plus. replace (52 + e + -53) with (e + -1) by lia.
      rewrite pow2_plus. apply Qmult_le_l; [done|]. by vm_compute.
    - apply Qmult_le_r; [apply pow2_pos | done]. }
  apply (Qmult_le_r _ _ (2 ^ e)) in N1; [|done].
  apply (Qmult_le_r _ _ (2 ^ e)) in N2; [|done].
  rewrite unscale in N1, N2.
  clearbody m. set (p := (2 ^ e)%Q) in *. clearbody p.
  set (u := (2 ^ (-53))%Q) in *. clearbody u.
  split; lra.
Qed.

Lemma round64_pos_eq (x : Q) : (0 < x)%Q → round64 x = round64_pos x.
Proof.
  intros Hx. unfold round64.
  destruct (Qnum x) eqn:E; [| done |];
    unfold Qlt in Hx; simpl in Hx; lia.
Qed.

Lemma quotient_pos (a b : Z) :
  0 < a → 0 < b → (0 < inject_Z a / inject_Z b)%Q.
Proof.
  intros Ha Hb. apply Qlt_shift_div_l.
  - change 0%Q with (inject_Z 0). by rewrite <- Zlt_Qlt.
  - rewrite Qmult_0_l. change 0%Q with (inject_Z 0). by rewrite <- Zlt_Qlt.
Qed.

Lemma one_pivot : (inject_Z (2 ^ 52) * 2 ^ (-52) == 1)%Q.
Proof. by vm_compute. Qed.

Lemma hundred_pivot : (inject_Z (25 * 2 ^ 48) * 2 ^ (-46) == 100)%Q.
Proof. by vm_compute. Qed.

Lemma rate_zero (b : Z) : float_mul (int_truediv 0 b) 100 = 0%Q.
Proof. by destruct b. Qed.

Lemma rate_pos (a b : Z) : 0 < a → 0 < b → (0 < float_mul (int_truediv a b) 100)%Q.
Proof.
  intros Ha Hb. unfold float_mul, int_truediv.
  pose proof (quotient_pos a b Ha Hb) as Hx.
  rewrite (round64_pos_eq _ Hx).
  pose proof (round64_pos_pos _ Hx) as Hy.
  assert (Hz : (0 < round64_pos (inject_Z a / inject_Z b) * 100)%Q) by lra.
  rewrite (round64_pos_eq _ Hz). by apply round64_pos_pos.
Qed.

Lemma rate_le_100 (a b : Z) : 0 < a <= b → (float_mul (int_truediv a b) 100 <= 100)%Q.
Proof.
  intros [Ha Hab]. assert (Hb : 0 < b) by lia.
  unfold float_mul, int_truediv.
  pose proof (quotient_pos a b Ha Hb) as Hx.
  rewrite (round64_pos_eq _ Hx).
  pose proof (round64_pos_pos _ Hx) as Hy.
  assert (Hy1 : (round64_pos (inject_Z a / inject_Z b) <= 1)%Q).
  { apply Qle_trans with (inject_Z (2 ^ 52) * 2 ^ (-52))%Q;
      [|by rewrite one_pivot].
    apply round64_pos_le; [done | lia |].
    rewrite one_pivot. apply Qle_shift_div_r.
    - change 0%Q with (inject_Z 0). by rewrite <- Zlt_Qlt.
    - rewrite Qmult_1_l. by rewrite <- Zle_Qle. }
  assert (Hz : (0 < round64_pos (inject_Z a / inject_Z b) * 100)%Q) by lra.
  rewrite (round64_pos_eq _ Hz).
  apply Qle_trans with (inject_Z (25 * 2 ^ 48) * 2 ^ (-46))%Q;
    [|by rewrite hundred_pivot].
  apply round64_pos_le; [done | lia |].
  rewrite hundred_pivot. lra.
Qed.

Lemma rate_gt_100 (a b : Z) :
  0 < b < a → b <= 2 ^ 52 → (100 < float_mul (int_truediv a b) 100)%Q.
Proof.
  intros [Hb Hab] Hb52. assert (Ha : 0 < a) by lia.
  unfold float_mul, int_truediv.
  pose proof (quotient_pos a b Ha Hb) as Hx.
  rewrite (round64_pos_eq _ Hx).
  pose proof (round64_pos_pos _ Hx) as Hy.
  assert (Hy1 : (inject_Z (2 ^ 52 + 1) * 2 ^ (-52)
                 <= round64_pos (inject_Z a / inject_Z b))%Q).
  { apply round64_pos_ge; [done | lia |].
    apply Qle_shift_div_l.
    - change 0%Q with (inject_Z 0). by rewrite <- Zlt_Qlt.
    - change (2 ^ (-52))%Q with (1 # 4503599627370496)%Q.
      change (2 ^ 52 + 1) with 4503599627370497.
      apply Qle_trans with (inject_Z (b + 1)); [|rewrite <- Zle_Qle; lia].
      rewrite inject_Z_plus.
      assert (inject_Z b <= inject_Z 4503599627370496)%Q
        by (by rewrite <- Zle_Qle).
      change (inject_Z 4503599627370496) with (4503599627370496 # 1)%Q in H.
      change (inject_Z 4503599627370497) with (4503599627370497 # 1)%Q.
      change (inject_Z 1) with 1%Q.
      lra. }
  assert (Hz : (0 < round64_pos (inject_Z a / inject_Z b) * 100)%Q) by lra.
  rewrite (round64_pos_eq _ Hz).
  apply Qlt_le_trans with (inject_Z (25 * 2 ^ 48 + 1) * 2 ^ (-46))%Q;
    [by vm_compute|].
  apply round64_pos_ge; [done | lia |].
  change (2 ^ (-52))%Q with (1 # 4503599627370496)%Q in Hy1.
  change (inject_Z (2 ^ 52 + 1)) with (4503599627370497 # 1)%Q in Hy1.
  change (2 ^ (-46))%Q with (1 # 70368744177664)%Q.
  change (inject_Z (25 * 2 ^ 48 + 1)) with (7036874417766401 # 1)%Q.
  lra.
Qed.

Lemma rate_near (a b : Z) :
  0 < a → 0 < b →
  (100 * (inject_Z a / inject_Z b) * (1 - 2 ^ (-51))
   <= float_mul (int_truediv a b) 100)%Q
  ∧ (float_mul (int_truediv a b) 100
     <= 100 * (inject_Z a / inject_Z b) * (1 + 2 ^ (-51)))%Q.
Proof.
  intros Ha Hb. unfold float_mul, int_truediv.
  pose proof (quotient_pos a b Ha Hb) as Hx.
  rewrite (round64_pos_eq _ Hx).
  pose proof (round64_pos_pos _ Hx) as Hy.
  destruct (round64_pos_near _ Hx) as [X1 X2].
  assert (Hz : (0 < round64_pos (inject_Z a / inject_Z b) * 100)%Q) by lra.
  rewrite (round64_pos_eq _ Hz).
  destruct (round64_pos_near _ Hz) as [Y1 Y2].
  set (x := (inject_Z a / inject_Z b)%Q) in *. clearbody x.
  set (y := round64_pos x) in *. clearbody y.
  set (z := round64_pos (y * 100)) in *. clearbody z.
  change (2 ^ (-53))%Q with (1 # 9007199254740992)%Q in *.
  change (2 ^ (-51))%Q with (1 # 2251799813685248)%Q.
  split; lra.
Qed.

(** The rate [(a / t) * 100] of two counts, as Python computes it. *)
Lemma float_rate_bounds (a t : Z) :
  0 <= a → 0 < t →
  (0 <= float_mul (int_truediv a t) 100)%Q
  ∧ (a <= t → (float_mul (int_truediv a t) 100 <= 100)%Q)
  ∧ (t <= 2 ^ 52 → t < a → (100 < float_mul (int_truediv a t) 100)%Q)
  ∧ (100 * inject_Z a / inject_Z t * (1 - 2 ^ (-51))
     <= float_mul (int_truediv a t) 100)%Q
  ∧ (float_mul (int_truediv a t) 100
     <= 100 * inject_Z a / inject_Z t * (1 + 2 ^ (-51)))%Q.
Proof.
  intros Ha Ht.
  destruct (decide (a = 0)) as [->|Hne].
  - rewrite rate_zero. split; [done|]. split; [done|].
    split; [lia|]. split.
    + assert (E : (100 * inject_Z 0 / inject_Z t == 0)%Q)
        by (unfold Qdiv; change (inject_Z 0) with 0%Q; ring).
      rewrite E. lra.
    + assert (E : (100 * inject_Z 0 / inject_Z t == 0)%Q)
        by (unfold Qdiv; change (inject_Z 0) with 0%Q; ring).
      rewrite E. lra.
  - assert (Ha' : 0 < a) by lia.
    split; [apply Qlt_le_weak; by apply rate_pos|].
    split; [intros; apply rate_le_100; lia|].
    split; [intros; apply rate_gt_100; [lia | done]|].
    destruct (rate_near a t Ha' Ht) as [N1 N2].
    assert (E : (100 * inject_Z a / inject_Z t
                 == 100 * (inject_Z a / inject_Z t))%Q)
      by (unfold Qdiv; ring).
    rewrite E. done.
Qed.

(** ** Analytics *)

(** C5 (the code differs from the claim). The [daily_views] series of the
    broadcast analytics runs from the day 30 days before today up to and
    including today: one bucket per day, in order, each holding the
    number of view-log rows of the broadcast on that day (0 when there
    is none), which makes 31 buckets and not 30. *)
Theorem daily_views_buckets (db : DB) (pk : nat) (now : Z) :
  BroadcastViewSet.daily_views db pk now
  = (λ d, mkDailyCount d (BroadcastViewSet.views_count db pk d))
      <$> seqZ (now / 86400 - 30) 31
  ∧ length (BroadcastViewSet.daily_views db pk now) = 31%nat.
Proof.
  assert (E : BroadcastViewSet.daily_views db pk now
              = (λ d, mkDailyCount d (BroadcastViewSet.views_count db pk d))
                  <$> seqZ (now / 86400 - 30) 31).
  { unfold BroadcastViewSet.daily_views. cbv zeta.
    rewrite daily_loop_seqZ, app_nil_l.
    generalize (now / 86400). intros today.
    by replace (today + 1 - (today - 30)) with 31 by lia. }
  split; [done|]. rewrite E, length_fmap, length_seqZ. done.
Qed.

(** C4, as the specification words it, fails: with one recipient and two
    acknowledgments the code returns 200 where the clamped rate is 100. *)
Lemma acknowledgment_rate_exceeds_100 :
  Broadcast.total_recipients some_users ∅ narrowed = 1%nat
  ∧ size (Broadcast.acknowledged_by narrowed) = 2%nat
  ∧ (Broadcast.acknowledgment_rate some_users ∅ narrowed == 200)%Q
  ∧ (spec_acknowledgment_rate 2 1 == 100)%Q
  ∧ ¬ (Broadcast.acknowledgment_rate some_users ∅ narrowed
       == spec_acknowledgment_rate
            (size (Broadcast.acknowledged_by narrowed))
            (Broadcast.total_recipients some_users ∅ narrowed))%Q.
Proof. by vm_compute. Qed.

(** The two values of the rate that decimal arithmetic would round
    otherwise: 2 of 3 is 66.66666666666666 and 11 of 20 is
    55.00000000000001, one below and one above the exact quotient. *)
Lemma float_rate_examples :
  (float_mul (int_truediv 2 3) 100 == 2345624805922133 # 35184372088832)%Q
  ∧ (float_mul (int_truediv 2 3) 100 < 200 # 3)%Q
  ∧ (float_mul (int_truediv 11 20) 100
     == 7740561859543041 # 140737488355328)%Q
  ∧ (55 < float_mul (int_truediv 11 20) 100)%Q
  ∧ (float_mul (int_truediv 2 1) 100 == 200)%Q.
Proof. by vm_compute. Qed.

(** C4 (amended). The acknowledgment rate is 0 when there is no
    recipient. Otherwise it is the binary64 value of
    (acknowledged_count / total_recipients) * 100, quotient and product
    each rounded to nearest: it lies within a relative error of 2^-51 of
    100 * acknowledged_count / total_recipients, and it is not clamped.
    It is never negative, it is at most 100 whenever the acknowledgments
    do not outnumber the recipients, and, for 1 up to 2^52 recipients,
    it exceeds 100 whenever they do, so that it stays within 100 exactly
    when there is no recipient or the acknowledgments do not outnumber
    the recipients. *)
Theorem acknowledgment_rate_unclamped (us : gmap nat User.t)
    (gs : gmap nat Group.t) (b : Broadcast.t) :
  let ack := Z.of_nat (size (Broadcast.acknowledged_by b)) in
  let total := Z.of_nat (Broadcast.total_recipients us gs b) in
  let rate := Broadcast.acknowledgment_rate us gs b in
  let exact := (100 * inject_Z ack / inject_Z total)%Q in
  (total = 0 → rate = 0%Q)
  ∧ (0 < total →
     (exact * (1 - 2 ^ (-51)) <= rate)%Q
     ∧ (rate <= exact * (1 + 2 ^ (-51)))%Q)
  ∧ (0 <= rate)%Q
  ∧ (ack <= total → (rate <= 100)%Q)
  ∧ (0 < total <= 2 ^ 52 → total < ack → (100 < rate)%Q)
  ∧ (total <= 2 ^ 52 → ((rate <= 100)%Q ↔ total = 0 ∨ ack <= total)).
Proof.
  intros ack total rate exact.
  subst rate exact. unfold Broadcast.acknowledgment_rate. cbv zeta.
  fold ack. subst total.
  destruct (Broadcast.total_recipients us gs b) as [|n] eqn:E;
    simpl Nat.eqb; cbv iota.
  - split; [done|]. split; [lia|]. split; [done|]. split; [done|].
    split; [lia|]. by split; [left|].
  - destruct (float_rate_bounds ack (Z.of_nat (S n)))
      as (H0 & Hle & Hgt & N1 & N2); [lia | lia |].
    split; [lia|]. split; [done|]. split; [done|]. split; [done|].
    split; [intros [_ ?]; by apply Hgt|]. intros H52. split.
    + intros Hr. right.
      destruct (Z.le_gt_cases ack (Z.of_nat (S n))) as [?|Hlt]; [done|].
      specialize (Hgt H52 Hlt). lra.
    + intros [?|?]; [lia | by apply Hle].
Qed.

(** The scenario of the specification, 3 recipients of whom 2
    acknowledge: 66.66666666666666, just below 200/3. *)
Lemma acknowledgment_rate_unclamped_witness :
  Broadcast.total_recipients some_users ∅ two_of_three = 3%nat
  ∧ size (Broadcast.acknowledged_by two_of_three) = 2%nat
  ∧ (Broadcast.acknowledgment_rate some_users ∅ two_of_three
     == 2345624805922133 # 35184372088832)%Q
  ∧ (Broadcast.acknowledgment_rate some_users ∅ two_of_three < 200 # 3)%Q
  ∧ (0 <= Broadcast.acknowledgment_rate some_users ∅ two_of_three)%Q
  ∧ (Broadcast.acknowledgment_rate some_users ∅ two_of_three <= 100)%Q.
Proof.
  split; [by vm_compute|]. split; [by vm_compute|].
  split; [by vm_compute|]. split; [by vm_compute|].
  destruct (acknowledgment_rate_unclamped some_users ∅ two_of_three)
    as (_ & _ & H0 & Hle & _).
  split; [exact H0|]. apply Hle. by vm_compute.
Defined.

(** ** Visibility *)

(** C2 (the code differs from the claim). Neither [can_view_broadcast]
    nor [Event.user_can_view] consults the staff flag: the staff user 9
    is refused the unpublished broadcast of user 1 and the non-public
    event of user 1, although the list querysets and the write branch
    of the same permission classes let staff through. *)
Theorem staff_view_not_overridden :
  user_is_staff draft_db 9 = true
  ∧ IsBroadcastOwnerOrAdmin.can_view_broadcast draft_db 50 9 draft = false
  ∧ IsBroadcastOwnerOrAdmin.has_object_permission draft_db 50 "GET" 9 draft
    = false
  ∧ Event.user_can_view (groups draft_db) private_event 9 = false
  ∧ IsEventOwnerOrAdmin.has_object_permission draft_db "GET" 9 private_event
    = false
  ∧ BroadcastViewSet.get_queryset draft_db 9 !! 3%nat = Some draft
  ∧ EventViewSet.get_queryset draft_db 9 !! 6%nat = Some private_event
  ∧ IsBroadcastOwnerOrAdmin.has_object_permission draft_db 50 "PUT" 9 draft
    = true.
Proof. by vm_compute. Qed.

(** C6, as the specification words it, fails twice. At the instant
    [now = end_date] the broadcast is still visible; and a user listed in
    [target_users] of a broadcast whose audience is "groups" does not
    see it. User 1 is neither staff nor the creator of either
    broadcast. *)
Lemma can_view_broadcast_not_as_specified :
  user_is_staff notice_db 1 = false
  ∧ Broadcast.created_by notice ≠ 1%nat
  ∧ Broadcast.created_by group_notice ≠ 1%nat
  ∧ IsBroadcastOwnerOrAdmin.can_view_broadcast notice_db 100 1 notice = true
  ∧ spec_can_view_broadcast notice_db 100 1 notice = false
  ∧ IsBroadcastOwnerOrAdmin.can_view_broadcast notice_db 50 1 group_notice
    = false
  ∧ spec_can_view_broadcast notice_db 50 1 group_notice = true.
Proof. by vm_compute. Qed.

(** C6 (amended). For a user who is neither the creator nor staff,
    [can_view_broadcast] holds exactly when the broadcast is live -- the
    current time lies in the closed window [start, end], it is published
    and active -- and the user is targeted in the way the audience type
    says: audience "all"; or audience "groups" and the user is a member of
    some target group; or audience "users" and the user is in
    target_users. *)
Theorem can_view_broadcast_iff (db : DB) (now : Z) (uid : nat)
    (b : Broadcast.t) :
  user_is_staff db uid = false →
  Broadcast.created_by b ≠ uid →
  IsBroadcastOwnerOrAdmin.can_view_broadcast db now uid b = true
  ↔ (Broadcast.start_date b <= now <= Broadcast.end_date b
     ∧ Broadcast.is_published b = true
     ∧ Broadcast.is_active b = true)
    ∧ (Broadcast.audience_type b = "all"%string
       ∨ (Broadcast.audience_type b = "groups"%string
          ∧ ∃ gid g, gid ∈ Broadcast.target_groups b
                     ∧ groups db !! gid = Some g
                     ∧ uid ∈ Group.members g)
       ∨ (Broadcast.audience_type b = "users"%string
          ∧ uid ∈ Broadcast.target_users b)).
Proof.
  intros _ _.
  unfold IsBroadcastOwnerOrAdmin.can_view_broadcast, Broadcast.is_visible.
  destruct (Z.leb_spec (Broadcast.start_date b) now) as [Hs|Hs];
    [|simpl; split; [done | lia]].
  destruct (Z.leb_spec now (Broadcast.end_date b)) as [He|He];
    [|simpl; split; [done | lia]].
  destruct (Broadcast.is_published b);
    [|simpl; split; [done | by intros [(_ & ? & ?) _]]].
  destruct (Broadcast.is_active b);
    [|simpl; split; [done | by intros [(_ & ? & ?) _]]].
  simpl.
  destruct (String.eqb_spec (Broadcast.audience_type b) "all") as [Ea|Ea].
  { split; [|done]. intros _. split; [done|]. by left. }
  destruct (String.eqb_spec (Broadcast.audience_type b) "groups") as [Eg|Eg].
  { rewrite groups_with_member_true. rewrite Eg. split.
    - intros H. split; [done|]. right; left. done.
    - intros (_ & [?|[[_ H]|[? _]]]); done. }
  destruct (String.eqb_spec (Broadcast.audience_type b) "users") as [Eu|Eu].
  { rewrite bool_decide_eq_true. rewrite Eu. split.
    - intros H. split; [done|]. right; right. done.
    - intros (_ & [?|[[? _]|[_ H]]]); done. }
  split; [done|]. intros (_ & [?|[[? _]|[? _]]]); done.
Qed.

Lemma can_view_broadcast_iff_witness :
  user_is_staff notice_db 1 = false
  ∧ Broadcast.created_by notice ≠ 1%nat
  ∧ (IsBroadcastOwnerOrAdmin.can_view_broadcast notice_db 100 1 notice = true
     ↔ (Broadcast.start_date notice <= 100 <= Broadcast.end_date notice
        ∧ Broadcast.is_published notice = true
        ∧ Broadcast.is_active notice = true)
       ∧ (Broadcast.audience_type notice = "all"%string
          ∨ (Broadcast.audience_type notice = "groups"%string
             ∧ ∃ gid g, gid ∈ Broadcast.target_groups notice
                        ∧ groups notice_db !! gid = Some g
                        ∧ 1%nat ∈ Group.members g)
          ∨ (Broadcast.audience_type notice = "users"%string
             ∧ 1%nat ∈ Broadcast.target_users notice))).
Proof.
  split; [reflexivity|]. split; [simpl; lia|].
  apply (can_view_broadcast_iff notice_db 100 1 notice);
    [reflexivity | simpl; lia].
Defined.

(** ** The broadcast actions *)

Lemma alter_lookup_insert {A} (f : A → A) (m : gmap nat A) (i : nat) (x : A) :
  m !! i = Some x → alter f i m = <[i := f x]> m.
Proof.
  intros H. rewrite <- (insert_id m i x H) at 1. apply alter_insert_eq.
Qed.

Lemma union_missing (s : gset nat) (uid : nat) :
  s ∪ ({[uid]} ∖ s) = s ∪ {[uid]}.
Proof.
  apply set_eq. intros x.
  rewrite !elem_of_union, elem_of_difference.
  destruct (decide (x ∈ s)); naive_solver.
Qed.


Lemma acknowledged_by_add_eq (db : DB) (pk uid : nat) (b : Broadcast.t) :
  broadcasts db !! pk = Some b →
  acknowledged_by_add pk uid db
  = set_broadcasts
      (<[pk := Broadcast.set_acknowledged_by
                 (Broadcast.acknowledged_by b ∪ {[uid]}) b]> (broadcasts db)) db.
Proof.
  intros H. unfold acknowledged_by_add, broadcast_acknowledged,
    acknowledged_by_through. rewrite H. simpl String.eqb. cbv iota zeta.
  rewrite (alter_lookup_insert _ _ _ _ H). by rewrite union_missing.
Qed.

Lemma acknowledged_by_remove_eq (db : DB) (pk uid : nat) (b : Broadcast.t) :
  broadcasts db !! pk = Some b →
  acknowledged_by_remove pk uid db
  = set_broadcasts
      (<[pk := Broadcast.set_acknowledged_by
                 (Broadcast.acknowledged_by b ∖ {[uid]}) b]> (broadcasts db)) db.
Proof.
  intros H. unfold acknowledged_by_remove, broadcast_acknowledged,
    acknowledged_by_through. simpl String.eqb. cbv iota zeta.
  by rewrite (alter_lookup_insert _ _ _ _ H).
Qed.

Lemma broadcast_get_queryset_Some (db : DB) (uid pk : nat) (b : Broadcast.t) :
  BroadcastViewSet.get_queryset db uid !! pk = Some b →
  broadcasts db !! pk = Some b.
Proof.
  unfold BroadcastViewSet.get_queryset, BroadcastViewSet.queryset.
  destruct (user_is_staff db uid); rewrite !map_lookup_filter_Some; tauto.
Qed.


Lemma acknowledge_200_inv (request : Request.t) (pk : nat)
    (data : option bool) (now : Z) (db db' : DB) :
  BroadcastViewSet.acknowledge request pk data now db = (HTTP_200_OK, db') →
  ∃ uid b want,
    Request.user request = Some uid
    ∧ Request.method request = "POST"%string
    ∧ BroadcastViewSet.get_queryset db uid !! pk = Some b
    ∧ CanAcknowledgeBroadcast.has_object_permission db now uid b = true
    ∧ data = Some want
    ∧ db' = if want then acknowledged_by_add pk uid db
            else acknowledged_by_remove pk uid db.
Proof.
  unfold BroadcastViewSet.acknowledge, get_object,
    BroadcastAcknowledgeSerializer.
  intros H.
  destruct (Request.user request) as [uid|]; [|done].
  destruct (String.eqb_spec (Request.method request) "POST") as [Em|Em];
    simpl in H; [|done].
  destruct (BroadcastViewSet.get_queryset db uid !! pk) as [b|] eqn:Eb;
    [|done].
  destruct (CanAcknowledgeBroadcast.has_object_permission db now uid b)
    eqn:Ep; [|done].
  destruct data as [[]|]; inversion H; subst; eauto 10.
Qed.












(** C10. mark_viewed is a POST action under the viewset's own permission
    class, so it goes through the write branch of
    [IsBroadcastOwnerOrAdmin]: for an authenticated user who is neither
    staff nor the creator the object permission is refused, the answer is
    Forbidden once the broadcast is found in the user's queryset (and
    NotFound when it is not), and the store is left unchanged; a
    successful call therefore comes from staff or from the creator. *)
Theorem mark_viewed_owner_or_staff_only (request : Request.t) (pk : nat)
    (now : Z) (db : DB) (uid : nat) :
  Request.user request = Some uid →
  Request.method request = "POST"%string →
  user_is_staff db uid = false →
  (∀ b, broadcasts db !! pk = Some b → Broadcast.created_by b ≠ uid) →
  (∀ b, broadcasts db !! pk = Some b →
        IsBroadcastOwnerOrAdmin.has_object_permission db now "POST" uid b
        = false)
  ∧ (BroadcastViewSet.mark_viewed request pk now db).2 = db
  ∧ (BroadcastViewSet.mark_viewed request pk now db).1
    = match BroadcastViewSet.get_queryset db uid !! pk with
      | Some _ => HTTP_403_FORBIDDEN
      | None => HTTP_404_NOT_FOUND
      end.
Proof.
  intros Hu Hm Hs Hc.
  assert (Hperm : ∀ b, broadcasts db !! pk = Some b →
            IsBroadcastOwnerOrAdmin.has_object_permission db now "POST" uid b
            = false).
  { intros b Hb. unfold IsBroadcastOwnerOrAdmin.has_object_permission.
    simpl. rewrite Hs. simpl. apply bool_decide_eq_false. by apply Hc. }
  split; [done|].
  unfold BroadcastViewSet.mark_viewed, get_object.
  rewrite Hu, Hm. simpl negb. cbv iota.
  destruct (BroadcastViewSet.get_queryset db uid !! pk) as [b|] eqn:Hq;
    [|done].
  rewrite (Hperm b (broadcast_get_queryset_Some _ _ _ _ Hq)). done.
Qed.

(** ** The rsvp action *)

Lemma rsvp_changed_skip (status : string) (instance : nat) (action : string)
    (pk_set : gset nat) (now : Z) (db : DB) :
  action ≠ "post_add"%string →
  rsvp_changed status instance action pk_set now db = db.
Proof.
  intros Hne. unfold rsvp_changed, rsvp_changed_loop.
  by destruct (String.eqb_spec action "post_add").
Qed.

Lemma rsvp_changed_added (status : string) (instance uid : nat) (now : Z)
    (db : DB) :
  is_Some (users db !! uid) →
  rsvp_changed status instance "post_add" {[uid]} now db
  = EventRSVPLog_create instance uid None status now db.
Proof.
  intros [u Hu]. unfold rsvp_changed, rsvp_changed_loop.
  rewrite String.eqb_refl, bool_decide_eq_false_2
    by (apply non_empty_singleton_L).
  simpl. rewrite elements_singleton. simpl. by rewrite Hu.
Qed.

(** A receiver only ever appends to the RSVP log. *)
Lemma rsvp_changed_frame (status : string) (instance : nat) (action : string)
    (pk_set : gset nat) (now : Z) (db : DB) :
  ∃ l, rsvp_changed status instance action pk_set now db
       = set_rsvp_logs (rsvp_logs db ++ l) db.
Proof.
  unfold rsvp_changed, rsvp_changed_loop.
  destruct (String.eqb action "post_add" && negb (bool_decide (pk_set = ∅))).
  - generalize (elements pk_set). intros ids. revert db.
    induction ids as [|i ids IH]; intros db; simpl.
    + exists []. rewrite app_nil_r. by destruct db.
    + destruct (users db !! i).
      * destruct (IH (EventRSVPLog_create instance i None status now db))
          as [l ->].
        exists (EventRSVPLog.mk instance i None status now :: l).
        unfold EventRSVPLog_create, set_rsvp_logs. simpl.
        by rewrite <- app_assoc.
      * apply IH.
  - exists []. rewrite app_nil_r. by destruct db.
Qed.

Lemma rsvp_yes_remove_eq (pk uid : nat) (now : Z) (db : DB) :
  rsvp_yes_remove pk uid now db = rsvp_yes_through pk (λ s, s ∖ {[uid]}) db.
Proof.
  unfold rsvp_yes_remove, event_rsvp_yes_changed.
  by rewrite !rsvp_changed_skip by done.
Qed.

Lemma rsvp_no_remove_eq (pk uid : nat) (now : Z) (db : DB) :
  rsvp_no_remove pk uid now db = rsvp_no_through pk (λ s, s ∖ {[uid]}) db.
Proof.
  unfold rsvp_no_remove, event_rsvp_no_changed.
  by rewrite !rsvp_changed_skip by done.
Qed.

Lemma rsvp_maybe_remove_eq (pk uid : nat) (now : Z) (db : DB) :
  rsvp_maybe_remove pk uid now db
  = rsvp_maybe_through pk (λ s, s ∖ {[uid]}) db.
Proof.
  unfold rsvp_maybe_remove, event_rsvp_maybe_changed.
  by rewrite !rsvp_changed_skip by done.
Qed.

(** The store after the three removals. *)
Lemma rsvp_removed (pk uid : nat) (now : Z) (db : DB) (e : Event.t) :
  events db !! pk = Some e →
  rsvp_maybe_remove pk uid now
    (rsvp_no_remove pk uid now (rsvp_yes_remove pk uid now db))
  = set_events
      (<[pk := Event.set_rsvp (Event.rsvp_yes e ∖ {[uid]})
                              (Event.rsvp_no e ∖ {[uid]})
                              (Event.rsvp_maybe e ∖ {[uid]}) e]> (events db))
      db.
Proof.
  intros He.
  rewrite rsvp_yes_remove_eq, rsvp_no_remove_eq, rsvp_maybe_remove_eq.
  unfold rsvp_maybe_through, rsvp_no_through, rsvp_yes_through, set_events.
  simpl. f_equal.
  rewrite (alter_lookup_insert _ _ _ _ He).
  rewrite (alter_lookup_insert _ _ pk _ (lookup_insert_eq _ _ _)).
  rewrite insert_insert_eq.
  rewrite (alter_lookup_insert _ _ pk _ (lookup_insert_eq _ _ _)).
  by rewrite insert_insert_eq.
Qed.

(** Adding a user who is not in the relation: the relation grows, and the
    receiver appends its row when the user exists. *)
Lemma rsvp_add_frame
    (add : nat → nat → Z → DB → DB) (status : string)
    (through : nat → (gset nat → gset nat) → DB → DB)
    (sel : Event.t → gset nat) :
  (∀ pk uid now db,
     add pk uid now db
     = let missing : gset nat := {[uid]} ∖ related sel pk db in
       let db := rsvp_changed status pk "pre_add" missing now db in
       let db := through pk (λ s, s ∪ missing) db in
       rsvp_changed status pk "post_add" missing now db) →
  (∀ pk f db, users (through pk f db) = users db
              ∧ rsvp_logs (through pk f db) = rsvp_logs db) →
  ∀ pk uid now db e,
    events db !! pk = Some e → uid ∉ sel e →
    ∃ l, add pk uid now db
         = set_rsvp_logs (rsvp_logs db ++ l)
             (through pk (λ s, s ∪ {[uid]}) db)
         ∧ (is_Some (users db !! uid) →
            l = [EventRSVPLog.mk pk uid None status now]).
Proof.
  intros Hadd Hthrough pk uid now db e He Hn.
  rewrite Hadd. unfold related. rewrite He. cbv zeta.
  replace ({[uid]} ∖ sel e) with ({[uid]} : gset nat) by set_solver.
  rewrite (rsvp_changed_skip status pk "pre_add") by done.
  destruct (Hthrough pk (λ s, s ∪ {[uid]}) db) as [Hus Hlogs].
  destruct (decide (is_Some (users db !! uid))) as [Hu|Hu].
  - exists [EventRSVPLog.mk pk uid None status now]. split; [|done].
    rewrite rsvp_changed_added by (by rewrite Hus).
    unfold EventRSVPLog_create. by rewrite Hlogs.
  - destruct (rsvp_changed_frame status pk "post_add" {[uid]} now
                (through pk (λ s, s ∪ {[uid]}) db)) as [l El].
    exists l. rewrite El, Hlogs. done.
Qed.

Lemma rsvp_serializer_valid (s new_status : string) :
  RSVPSerializer (Some s) = Some new_status →
  new_status = s ∧ (s = "yes" ∨ s = "no" ∨ s = "maybe")%string.
Proof.
  unfold RSVPSerializer.
  destruct (String.eqb_spec s "yes"); [intros [= <-]; auto|].
  destruct (String.eqb_spec s "no"); [intros [= <-]; auto|].
  destruct (String.eqb_spec s "maybe"); [intros [= <-]; auto|].
  done.
Qed.

Lemma rsvp_200_inv (request : Request.t) (pk : nat) (data : option string)
    (now : Z) (db db' : DB) :
  EventViewSet.rsvp request pk data now db = (HTTP_200_OK, db') →
  ∃ uid e new_status,
    Request.user request = Some uid
    ∧ Request.method request = "POST"%string
    ∧ EventViewSet.get_queryset db uid !! pk = Some e
    ∧ CanRSVPToEvent.has_object_permission db now uid e = true
    ∧ data = Some new_status
    ∧ (new_status = "yes" ∨ new_status = "no" ∨ new_status = "maybe")%string.
Proof.
  unfold EventViewSet.rsvp, get_object. intros H.
  destruct (Request.user request) as [uid|]; [|done].
  destruct (String.eqb_spec (Request.method request) "POST") as [Em|Em];
    simpl in H; [|done].
  destruct (EventViewSet.get_queryset db uid !! pk) as [e|] eqn:Eq; [|done].
  destruct (CanRSVPToEvent.has_object_permission db now uid e) eqn:Ep;
    [|done].
  destruct data as [s|]; [|done].
  destruct (RSVPSerializer (Some s)) as [new_status|] eqn:Es; [|done].
  destruct (rsvp_serializer_valid _ _ Es) as [-> Hv].
  exists uid, e, s. done.
Qed.

Lemma rsvp_refused (request : Request.t) (pk : nat) (data : option string)
    (now : Z) (db : DB) :
  (EventViewSet.rsvp request pk data now db).1 ≠ HTTP_200_OK →
  (EventViewSet.rsvp request pk data now db).2 = db.
Proof.
  unfold EventViewSet.rsvp, get_object.
  destruct (Request.user request) as [uid|]; [|done].
  destruct (negb _); [done|].
  destruct (EventViewSet.get_queryset db uid !! pk) as [e|]; [|done].
  destruct (CanRSVPToEvent.has_object_permission db now uid e); [|done].
  destruct (RSVPSerializer data); done.
Qed.

Lemma event_get_queryset_Some (db : DB) (uid pk : nat) (e : Event.t) :
  EventViewSet.get_queryset db uid !! pk = Some e
  ↔ events db !! pk = Some e
    ∧ Event.is_active e = true
    ∧ (user_is_staff db uid = true
       ∨ (Event.is_public e
          || bool_decide (uid ∈ Event.visible_to_users e)
          || groups_with_member (groups db) (Event.visible_to_groups e) uid
          || bool_decide (Event.created_by e = uid)) = true).
Proof.
  unfold EventViewSet.get_queryset, EventViewSet.queryset.
  destruct (user_is_staff db uid); rewrite !map_lookup_filter_Some; simpl.
  - tauto.
  - split; [tauto|]. intros (? & ? & [?|?]); done.
Qed.

(** What every successful rsvp call does to the store. *)
Lemma rsvp_200_effect (request : Request.t) (pk : nat) (data : option string)
    (now : Z) (db db' : DB) :
  EventViewSet.rsvp request pk data now db = (HTTP_200_OK, db') →
  ∃ uid e new_status l,
    Request.user request = Some uid
    ∧ data = Some new_status
    ∧ events db !! pk = Some e
    ∧ db' = set_rsvp_logs
              (rsvp_logs db ++ l
               ++ [EventRSVPLog.mk pk uid (Event.get_user_rsvp_status e uid)
                                   new_status now])
              (set_events
                 (<[pk := Event.set_rsvp
                     (if String.eqb new_status "yes"
                      then Event.rsvp_yes e ∖ {[uid]} ∪ {[uid]}
                      else Event.rsvp_yes e ∖ {[uid]})
                     (if String.eqb new_status "no"
                      then Event.rsvp_no e ∖ {[uid]} ∪ {[uid]}
                      else Event.rsvp_no e ∖ {[uid]})
                     (if String.eqb new_status "maybe"
                      then Event.rsvp_maybe e ∖ {[uid]} ∪ {[uid]}
                      else Event.rsvp_maybe e ∖ {[uid]}) e]> (events db)) db)
    ∧ (is_Some (users db !! uid) →
       l = [EventRSVPLog.mk pk uid None new_status now]).
Proof.
  intros H.
  destruct (rsvp_200_inv _ _ _ _ _ _ H)
    as (uid & e & s & Hu & Hm & Hq & Hp & -> & Hv).
  pose proof (proj1 (event_get_queryset_Some _ _ _ _) Hq) as (He & _ & _).
  exists uid, e, s.
  unfold EventViewSet.rsvp, get_object in H.
  rewrite Hu, Hm, Hq, Hp in H. simpl negb in H. cbv iota in H.
  assert (Es : RSVPSerializer (Some s) = Some s).
  { unfold RSVPSerializer. by destruct Hv as [-> | [-> | ->]]. }
  rewrite Es in H. cbv zeta in H.
  rewrite (rsvp_removed pk uid now db e He) in H.
  set (e3 := Event.set_rsvp (Event.rsvp_yes e ∖ {[uid]})
               (Event.rsvp_no e ∖ {[uid]}) (Event.rsvp_maybe e ∖ {[uid]}) e)
    in *.
  set (db3 := set_events (<[pk := e3]> (events db)) db) in *.
  assert (He3 : events db3 !! pk = Some e3) by apply lookup_insert_eq.
  assert (Hthrough : ∀ g,
    set_events (alter g pk (events db3)) db3
    = set_events (<[pk := g e3]> (events db)) db).
  { intros g. rewrite (alter_lookup_insert _ _ _ _ He3).
    unfold db3, set_events. simpl. by rewrite insert_insert_eq. }
  destruct Hv as [-> | [-> | ->]]; simpl String.eqb in *; cbv iota in *.
  - destruct (rsvp_add_frame rsvp_yes_add "yes" rsvp_yes_through
                Event.rsvp_yes (λ _ _ _ _, eq_refl)
                (λ _ _ _, conj eq_refl eq_refl) pk uid now db3 e3 He3)
      as (l & El & Hl); [subst e3; simpl; set_solver|].
    exists l. rewrite El in H. injection H as <-.
    split; [done|]. split; [done|]. split; [done|]. split; [|exact Hl].
    unfold rsvp_yes_through. rewrite Hthrough.
    unfold EventRSVPLog_create, set_rsvp_logs. simpl.
    by rewrite <- app_assoc.
  - destruct (rsvp_add_frame rsvp_no_add "no" rsvp_no_through
                Event.rsvp_no (λ _ _ _ _, eq_refl)
                (λ _ _ _, conj eq_refl eq_refl) pk uid now db3 e3 He3)
      as (l & El & Hl); [subst e3; simpl; set_solver|].
    exists l. rewrite El in H. injection H as <-.
    split; [done|]. split; [done|]. split; [done|]. split; [|exact Hl].
    unfold rsvp_no_through. rewrite Hthrough.
    unfold EventRSVPLog_create, set_rsvp_logs. simpl.
    by rewrite <- app_assoc.
  - destruct (rsvp_add_frame rsvp_maybe_add "maybe" rsvp_maybe_through
                Event.rsvp_maybe (λ _ _ _ _, eq_refl)
                (λ _ _ _, conj eq_refl eq_refl) pk uid now db3 e3 He3)
      as (l & El & Hl); [subst e3; simpl; set_solver|].
    exists l. rewrite El in H. injection H as <-.
    split; [done|]. split; [done|]. split; [done|]. split; [|exact Hl].
    unfold rsvp_maybe_through. rewrite Hthrough.
    unfold EventRSVPLog_create, set_rsvp_logs. simpl.
    by rewrite <- app_assoc.
Qed.

Lemma user_can_view_Q (gs : gmap nat Group.t) (e : Event.t) (uid : nat) :
  Event.user_can_view gs e uid
  = Event.is_public e
    || bool_decide (uid ∈ Event.visible_to_users e)
    || groups_with_member gs (Event.visible_to_groups e) uid
    || bool_decide (Event.created_by e = uid).
Proof.
  unfold Event.user_can_view.
  destruct (Event.is_public e); [done|].
  destruct (bool_decide (Event.created_by e = uid));
    destruct (bool_decide (uid ∈ Event.visible_to_users e));
    destruct (groups_with_member gs (Event.visible_to_groups e) uid); done.
Qed.

Lemma set_rsvp_exclusive (e : Event.t) (uid : nat) (new_status : string) :
  rsvp_exclusive e →
  rsvp_exclusive
    (Event.set_rsvp
       (if String.eqb new_status "yes"
        then Event.rsvp_yes e ∖ {[uid]} ∪ {[uid]}
        else Event.rsvp_yes e ∖ {[uid]})
       (if String.eqb new_status "no"
        then Event.rsvp_no e ∖ {[uid]} ∪ {[uid]}
        else Event.rsvp_no e ∖ {[uid]})
       (if String.eqb new_status "maybe"
        then Event.rsvp_maybe e ∖ {[uid]} ∪ {[uid]}
        else Event.rsvp_maybe e ∖ {[uid]}) e).
Proof.
  unfold rsvp_exclusive. simpl. intros (H1 & H2 & H3).
  destruct (String.eqb_spec new_status "yes") as [->|Hy]; simpl.
  { repeat split; set_solver. }
  destruct (String.eqb_spec new_status "no") as [->|Hn]; simpl.
  { repeat split; set_solver. }
  destruct (String.eqb new_status "maybe"); repeat split; set_solver.
Qed.

Lemma rsvp_preserves_exclusive (request : Request.t) (pk : nat)
    (data : option string) (now : Z) (db : DB) :
  db_rsvp_exclusive db →
  db_rsvp_exclusive (EventViewSet.rsvp request pk data now db).2.
Proof.
  intros Hinv.
  destruct (EventViewSet.rsvp request pk data now db) as [r db'] eqn:E.
  destruct (decide (r = HTTP_200_OK)) as [->|Hr].
  - destruct (rsvp_200_effect _ _ _ _ _ _ E)
      as (uid & e & s & l & _ & _ & He & -> & _).
    simpl. intros pk0 e0. unfold set_events. simpl.
    destruct (decide (pk = pk0)) as [<-|Hne].
    + rewrite lookup_insert_eq. intros [= <-].
      apply set_rsvp_exclusive. by apply (Hinv pk).
    + rewrite lookup_insert_ne by done. apply Hinv.
  - pose proof (rsvp_refused request pk data now db) as Hsame.
    rewrite E in Hsame. simpl in *. by rewrite Hsame.
Qed.

(** C1 (the code differs from the claim). A successful rsvp call by an
    existing user appends two rows to the RSVP log, not one: first the
    row of the [m2m_changed] receiver, with a null old status, then the
    row of the view, with the user's previous status. *)
Theorem rsvp_appends_two_rows (request : Request.t) (pk : nat)
    (data : option string) (now : Z) (db db' : DB) (uid : nat) :
  Request.user request = Some uid →
  is_Some (users db !! uid) →
  EventViewSet.rsvp request pk data now db = (HTTP_200_OK, db') →
  ∃ e new_status,
    data = Some new_status
    ∧ events db !! pk = Some e
    ∧ rsvp_logs db'
      = rsvp_logs db
        ++ [ EventRSVPLog.mk pk uid None new_status now;
             EventRSVPLog.mk pk uid (Event.get_user_rsvp_status e uid)
                             new_status now ].
Proof.
  intros Hu Hex H.
  destruct (rsvp_200_effect _ _ _ _ _ _ H)
    as (uid' & e & s & l & Hu' & Hd & He & -> & Hl).
  rewrite Hu in Hu'. injection Hu' as <-.
  exists e, s. split; [done|]. split; [done|].
  simpl. by rewrite (Hl Hex).
Qed.

Lemma rsvp_appends_two_rows_witness :
  Request.user (post 1) = Some 1%nat
  ∧ is_Some (users party_db !! 1%nat)
  ∧ length (rsvp_logs (EventViewSet.rsvp (post 1) 5 (Some "yes"%string) 100
                         party_db).2) = 2%nat.
Proof.
  assert (Hex : is_Some (users party_db !! 1%nat))
    by (exists member; by vm_compute).
  split; [reflexivity|]. split; [exact Hex|].
  destruct (rsvp_appends_two_rows (post 1) 5 (Some "yes"%string) 100 party_db
              (EventViewSet.rsvp (post 1) 5 (Some "yes"%string) 100 party_db).2
              1 eq_refl Hex) as (e & s & _ & _ & ->).
  - by vm_compute.
  - reflexivity.
Defined.

(** The scenario of C1 on the code: after "yes" then "maybe" the user is
    in the maybe set only, and the RSVP log holds four rows. *)
Lemma rsvp_yes_then_maybe :
  related Event.rsvp_yes 5 (run_rsvp yes_then_maybe party_db) = ∅
  ∧ related Event.rsvp_no 5 (run_rsvp yes_then_maybe party_db) = ∅
  ∧ related Event.rsvp_maybe 5 (run_rsvp yes_then_maybe party_db) = {[ 1%nat ]}
  ∧ rsvp_logs (run_rsvp yes_then_maybe party_db)
    = [ EventRSVPLog.mk 5 1 None "yes" 100;
        EventRSVPLog.mk 5 1 None "yes" 100;
        EventRSVPLog.mk 5 1 None "maybe" 200;
        EventRSVPLog.mk 5 1 (Some "yes"%string) "maybe" 200 ].
Proof. by vm_compute. Qed.

(** C3. Mutual exclusion of the three RSVP sets is an invariant of the
    rsvp action: from a store in which every event has pairwise disjoint
    RSVP sets (a newly created event has three empty sets), every finite
    sequence of rsvp calls, by any users and in any order, whether they
    succeed or are refused, leads to a store in which every user is in at
    most one of the three sets of every event. *)
Theorem rsvp_sets_exclusive (calls : list RsvpCall) (db : DB) :
  db_rsvp_exclusive db →
  db_rsvp_exclusive (run_rsvp calls db).
Proof.
  unfold run_rsvp. revert db.
  induction calls as [|c calls IH]; intros db Hinv; simpl; [done|].
  apply IH. by apply rsvp_preserves_exclusive.
Qed.

Lemma rsvp_sets_exclusive_witness :
  db_rsvp_exclusive party_db
  ∧ db_rsvp_exclusive (run_rsvp yes_then_maybe party_db).
Proof.
  assert (H : db_rsvp_exclusive party_db).
  { intros pk e. unfold party_db. simpl.
    intros [_ <-]%lookup_singleton_Some.
    unfold rsvp_exclusive. simpl. repeat split; set_solver. }
  split; [exact H|].
  apply (rsvp_sets_exclusive yes_then_maybe party_db H).
Defined.

(** C8, as the specification words it, fails on the answer: user 2, who
    is not staff and cannot view the non-public event of user 1, is
    answered NotFound, not Forbidden, when trying to RSVP at the start of
    the event; the store is unchanged. *)
Lemma rsvp_after_start_not_found :
  events draft_db !! 6%nat = Some private_event
  ∧ Event.combine (Event.date private_event) (Event.time private_event)
    <= 864000
  ∧ EventViewSet.rsvp (post 2) 6 (Some "yes"%string) 864000 draft_db
    = (HTTP_404_NOT_FOUND, draft_db)
  ∧ (EventViewSet.rsvp (post 2) 6 (Some "yes"%string) 864000 draft_db).1
    ≠ HTTP_403_FORBIDDEN.
Proof. by vm_compute. Qed.

(** C8 (amended). For an active event and an authenticated user, the
    object permission of rsvp holds exactly when the user can view the
    event and its date+time is still in the future, and a well-formed
    rsvp request succeeds exactly then. An attempt at or after the start
    leaves the store (RSVP sets and log) unchanged and is answered
    Forbidden when the user is staff or can view the event, NotFound
    otherwise (the event is then outside the user's queryset). *)
Theorem rsvp_permission (request : Request.t) (pk : nat)
    (data : option string) (now : Z) (db : DB) (uid : nat) (e : Event.t) :
  Request.user request = Some uid →
  Request.method request = "POST"%string →
  events db !! pk = Some e →
  Event.is_active e = true →
  (CanRSVPToEvent.has_object_permission db now uid e = true
   ↔ Event.user_can_view (groups db) e uid = true
     ∧ now < Event.combine (Event.date e) (Event.time e))
  ∧ (∀ new_status,
       RSVPSerializer (Some new_status) = Some new_status →
       (EventViewSet.rsvp request pk (Some new_status) now db).1 = HTTP_200_OK
       ↔ Event.user_can_view (groups db) e uid = true
         ∧ now < Event.combine (Event.date e) (Event.time e))
  ∧ (Event.combine (Event.date e) (Event.time e) <= now →
     EventViewSet.rsvp request pk data now db
     = (if user_is_staff db uid || Event.user_can_view (groups db) e uid
        then HTTP_403_FORBIDDEN else HTTP_404_NOT_FOUND, db)).
Proof.
  intros Hu Hm He Ha.
  assert (Hperm : CanRSVPToEvent.has_object_permission db now uid e = true
                  ↔ Event.user_can_view (groups db) e uid = true
                    ∧ now < Event.combine (Event.date e) (Event.time e)).
  { unfold CanRSVPToEvent.has_object_permission, Event.is_upcoming.
    rewrite andb_true_iff, Z.ltb_lt. done. }
  assert (Hq : ∀ e', EventViewSet.get_queryset db uid !! pk = Some e'
            ↔ e' = e
              ∧ (user_is_staff db uid || Event.user_can_view (groups db) e uid)
                = true).
  { intros e'. rewrite event_get_queryset_Some, He.
    rewrite (user_can_view_Q (groups db) e uid).
    split.
    - intros ([= <-] & _ & [Hs|Hv]); (split; [done|]).
      + by rewrite Hs.
      + rewrite Hv. apply orb_true_r.
    - intros (-> & Hv). split; [done|]. split; [done|].
      apply orb_true_iff in Hv as [Hs|Hv]; [by left|].
      by right. }
  split; [exact Hperm|]. split.
  - intros s Hs. unfold EventViewSet.rsvp, get_object.
    rewrite Hu, Hm. simpl negb. cbv iota.
    destruct (EventViewSet.get_queryset db uid !! pk) as [e'|] eqn:Eq in |- *.
    + apply Hq in Eq as [-> Hv].
      destruct (CanRSVPToEvent.has_object_permission db now uid e) eqn:Ep
        in |- *.
      * rewrite Hs. simpl. split; [intros _; by apply Hperm | done].
      * simpl. split; [done|]. intros Hc. apply Hperm in Hc. congruence.
    + simpl. split; [done|]. intros [Hv _].
      assert (Hin : EventViewSet.get_queryset db uid !! pk = Some e)
        by (apply Hq; split; [done|]; rewrite Hv; apply orb_true_r).
      congruence.
  - intros Hlate. unfold EventViewSet.rsvp, get_object.
    rewrite Hu, Hm. simpl negb. cbv iota.
    destruct (EventViewSet.get_queryset db uid !! pk) as [e'|] eqn:Eq in |- *.
    + apply Hq in Eq as [-> Hv]. rewrite Hv.
      destruct (CanRSVPToEvent.has_object_permission db now uid e) eqn:Ep
        in |- *; [|done].
      apply Hperm in Ep. lia.
    + destruct (user_is_staff db uid || Event.user_can_view (groups db) e uid)
        eqn:Hv; [|done].
      assert (Hin : EventViewSet.get_queryset db uid !! pk = Some e)
        by (by apply Hq).
      congruence.
Qed.

Lemma rsvp_permission_witness :
  Request.user (post 1) = Some 1%nat
  ∧ Request.method (post 1) = "POST"%string
  ∧ events party_db !! 5%nat = Some party
  ∧ Event.is_active party = true
  ∧ EventViewSet.rsvp (post 1) 5 (Some "yes"%string) 864000 party_db
    = (HTTP_403_FORBIDDEN, party_db).
Proof.
  assert (He : events party_db !! 5%nat = Some party) by (by vm_compute).
  split; [reflexivity|]. split; [reflexivity|]. split; [exact He|].
  split; [reflexivity|].
  destruct (rsvp_permission (post 1) 5 (Some "yes"%string) 864000 party_db 1
              party eq_refl eq_refl He eq_refl) as (_ & _ & H).
  rewrite H; [reflexivity|]. by vm_compute.
Defined.

(** ** Instances on the concrete stores *)




(** C10, as worded, fails on the answer: user 2, who is neither staff nor
    the creator, is answered NotFound and not Forbidden for a broadcast
    addressed to user 1 alone, because the broadcast is not in the
    queryset in which [get_object] looks it up; the store is unchanged. *)
Lemma mark_viewed_not_found :
  user_is_staff narrowed_db 2 = false
  ∧ Broadcast.created_by narrowed ≠ 2%nat
  ∧ broadcasts narrowed_db !! 7%nat = Some narrowed
  ∧ BroadcastViewSet.mark_viewed (post 2) 7 50 narrowed_db
    = (HTTP_404_NOT_FOUND, narrowed_db)
  ∧ (BroadcastViewSet.mark_viewed (post 2) 7 50 narrowed_db).1
    ≠ HTTP_403_FORBIDDEN.
Proof. by vm_compute. Qed.

Lemma mark_viewed_owner_or_staff_only_witness :
  Request.user (post 1) = Some 1%nat
  ∧ Request.method (post 1) = "POST"%string
  ∧ user_is_staff notice_db 1 = false
  ∧ BroadcastViewSet.mark_viewed (post 1) 3 50 notice_db
    = (HTTP_403_FORBIDDEN, notice_db).
Proof.
  assert (Hc : ∀ b, broadcasts notice_db !! 3%nat = Some b →
                    Broadcast.created_by b ≠ 1%nat).
  { intros b Hb. vm_compute in Hb. injection Hb as <-. simpl. lia. }
  split; [reflexivity|]. split; [reflexivity|]. split; [reflexivity|].
  destruct (mark_viewed_owner_or_staff_only (post 1) 3 50 notice_db 1
              eq_refl eq_refl eq_refl Hc) as (_ & Hdb & Hr).
  destruct (BroadcastViewSet.mark_viewed (post 1) 3 50 notice_db) as [r d].
  simpl in *. rewrite Hdb, Hr. by vm_compute.
Defined.

(** * Further properties *)

(** ** RSVP: status, frame and counts *)

Lemma rsvp_200_event (request : Request.t) (pk : nat) (data : option string)
    (now : Z) (db db' : DB) :
  EventViewSet.rsvp request pk data now db = (HTTP_200_OK, db') →
  ∃ uid e new_status,
    Request.user request = Some uid
    ∧ data = Some new_status
    ∧ (new_status = "yes" ∨ new_status = "no" ∨ new_status = "maybe")%string
    ∧ events db !! pk = Some e
    ∧ events db'
      = <[pk := Event.set_rsvp
            (if String.eqb new_status "yes"
             then Event.rsvp_yes e ∖ {[uid]} ∪ {[uid]}
             else Event.rsvp_yes e ∖ {[uid]})
            (if String.eqb new_status "no"
             then Event.rsvp_no e ∖ {[uid]} ∪ {[uid]}
             else Event.rsvp_no e ∖ {[uid]})
            (if String.eqb new_status "maybe"
             then Event.rsvp_maybe e ∖ {[uid]} ∪ {[uid]}
             else Event.rsvp_maybe e ∖ {[uid]}) e]> (events db)
    ∧ users db' = users db ∧ groups db' = groups db
    ∧ broadcasts db' = broadcasts db ∧ view_logs db' = view_logs db.
Proof.
  intros H.
  destruct (rsvp_200_inv _ _ _ _ _ _ H)
    as (uid & e0 & s & Hu & _ & _ & _ & Hd & Hv).
  destruct (rsvp_200_effect _ _ _ _ _ _ H)
    as (uid' & e & s' & l & Hu' & Hd' & He & -> & _).
  rewrite Hu in Hu'. injection Hu' as <-.
  rewrite Hd in Hd'. injection Hd' as <-.
  exists uid, e, s. done.
Qed.

(** After a successful rsvp call the status read back for the caller is
    the status that was sent, whatever the RSVP sets held before. *)
Theorem rsvp_status_round_trip (request : Request.t) (pk : nat)
    (data : option string) (now : Z) (db db' : DB) :
  EventViewSet.rsvp request pk data now db = (HTTP_200_OK, db') →
  ∃ uid new_status e',
    Request.user request = Some uid
    ∧ data = Some new_status
    ∧ events db' !! pk = Some e'
    ∧ Event.get_user_rsvp_status e' uid = Some new_status.
Proof.
  intros H.
  destruct (rsvp_200_event _ _ _ _ _ _ H)
    as (uid & e & s & Hu & Hd & Hv & He & Hev & _).
  exists uid, s. eexists. split; [done|]. split; [done|].
  split; [rewrite Hev; apply lookup_insert_eq|].
  unfold Event.get_user_rsvp_status.
  destruct Hv as [-> | [-> | ->]]; simpl.
  - rewrite bool_decide_eq_true_2 by set_solver. done.
  - rewrite bool_decide_eq_false_2 by set_solver.
    rewrite bool_decide_eq_true_2 by set_solver. done.
  - rewrite bool_decide_eq_false_2 by set_solver.
    rewrite bool_decide_eq_false_2 by set_solver.
    rewrite bool_decide_eq_true_2 by set_solver. done.
Qed.

Lemma rsvp_status_round_trip_witness :
  ∃ e', events (EventViewSet.rsvp (post 1) 5 (Some "no"%string) 100
                  party_db).2 !! 5%nat = Some e'
        ∧ Event.get_user_rsvp_status e' 1 = Some "no"%string.
Proof.
  destruct (rsvp_status_round_trip (post 1) 5 (Some "no"%string) 100 party_db
              (EventViewSet.rsvp (post 1) 5 (Some "no"%string) 100 party_db).2)
    as (uid & s & e' & Hu & Hd & He & Hs); [by vm_compute|].
  injection Hu as <-. injection Hd as <-. by exists e'.
Defined.

(** A successful rsvp call touches nothing but the caller's membership in
    the three sets of that one event and the RSVP log: users, groups,
    broadcasts, the view log and every other event are unchanged, the
    event keeps every other field, and every other user stays in exactly
    the sets they were in. *)
Theorem rsvp_frame (request : Request.t) (pk : nat) (data : option string)
    (now : Z) (db db' : DB) :
  EventViewSet.rsvp request pk data now db = (HTTP_200_OK, db') →
  ∃ uid e e',
    Request.user request = Some uid
    ∧ events db !! pk = Some e ∧ events db' !! pk = Some e'
    ∧ e' = Event.set_rsvp (Event.rsvp_yes e') (Event.rsvp_no e')
                          (Event.rsvp_maybe e') e
    ∧ (∀ other, other ≠ uid →
         (other ∈ Event.rsvp_yes e' ↔ other ∈ Event.rsvp_yes e)
         ∧ (other ∈ Event.rsvp_no e' ↔ other ∈ Event.rsvp_no e)
         ∧ (other ∈ Event.rsvp_maybe e' ↔ other ∈ Event.rsvp_maybe e))
    ∧ (∀ pk', pk' ≠ pk → events db' !! pk' = events db !! pk')
    ∧ users db' = users db ∧ groups db' = groups db
    ∧ broadcasts db' = broadcasts db ∧ view_logs db' = view_logs db.
Proof.
  intros H.
  destruct (rsvp_200_event _ _ _ _ _ _ H)
    as (uid & e & s & Hu & Hd & Hv & He & Hev & Hrest).
  exists uid, e. eexists. split; [done|]. split; [done|].
  split; [rewrite Hev; apply lookup_insert_eq|].
  split; [done|]. split.
  - intros other Hne. simpl.
    destruct (String.eqb s "yes"), (String.eqb s "no"),
      (String.eqb s "maybe"); set_solver.
  - split; [|done]. intros pk' Hne. rewrite Hev.
    by apply lookup_insert_ne.
Qed.

Lemma rsvp_frame_witness :
  broadcasts (EventViewSet.rsvp (post 1) 5 (Some "no"%string) 100 party_db).2
  = broadcasts party_db.
Proof.
  destruct (rsvp_frame (post 1) 5 (Some "no"%string) 100 party_db
              (EventViewSet.rsvp (post 1) 5 (Some "no"%string) 100 party_db).2)
    as (uid & e & e' & _ & _ & _ & _ & _ & _ & _ & _ & Hb & _);
    [by vm_compute|].
  exact Hb.
Defined.

Lemma size_without (s : gset nat) (uid : nat) :
  (size (s ∖ {[uid]}) + (if bool_decide (uid ∈ s) then 1 else 0)
   = size s)%nat.
Proof.
  destruct (bool_decide (uid ∈ s)) eqn:E.
  - apply bool_decide_eq_true in E.
    assert (Hsub : ({[uid]} : gset nat) ⊆ s) by set_solver.
    rewrite (size_difference s {[uid]} Hsub), size_singleton.
    assert (size s ≠ 0%nat); [|lia].
    intros Hz. apply size_empty_inv in Hz. set_solver.
  - apply bool_decide_eq_false in E.
    replace (s ∖ {[uid]}) with s by set_solver. lia.
Qed.

Lemma size_with (s : gset nat) (uid : nat) :
  size (s ∖ {[uid]} ∪ {[uid]}) = S (size (s ∖ {[uid]})).
Proof.
  rewrite size_union by set_solver. rewrite size_singleton. lia.
Qed.

(** With exclusive RSVP sets, a successful rsvp call adds one to
    [total_rsvp] when the caller had no status yet and leaves it unchanged
    when the caller only changes (or repeats) an answer. *)
Theorem rsvp_total_rsvp (request : Request.t) (pk : nat)
    (data : option string) (now : Z) (db db' : DB) (e : Event.t) :
  events db !! pk = Some e →
  rsvp_exclusive e →
  EventViewSet.rsvp request pk data now db = (HTTP_200_OK, db') →
  ∃ uid e',
    Request.user request = Some uid
    ∧ events db' !! pk = Some e'
    ∧ Event.total_rsvp e'
      = (Event.total_rsvp e
         + match Event.get_user_rsvp_status e uid with
           | None => 1
           | Some _ => 0
           end)%nat.
Proof.
  intros He (H1 & H2 & H3) H.
  destruct (rsvp_200_event _ _ _ _ _ _ H)
    as (uid & e0 & s & Hu & Hd & Hv & He0 & Hev & _).
  rewrite He in He0. injection He0 as <-.
  exists uid. eexists. split; [done|].
  split; [rewrite Hev; apply lookup_insert_eq|].
  unfold Event.total_rsvp, Event.total_rsvp_yes, Event.total_rsvp_no,
    Event.total_rsvp_maybe, Event.get_user_rsvp_status.
  pose proof (size_without (Event.rsvp_yes e) uid) as Sy.
  pose proof (size_without (Event.rsvp_no e) uid) as Sn.
  pose proof (size_without (Event.rsvp_maybe e) uid) as Sm.
  assert (Hex : ¬ (uid ∈ Event.rsvp_yes e ∧ uid ∈ Event.rsvp_no e)
                ∧ ¬ (uid ∈ Event.rsvp_yes e ∧ uid ∈ Event.rsvp_maybe e)
                ∧ ¬ (uid ∈ Event.rsvp_no e ∧ uid ∈ Event.rsvp_maybe e))
    by set_solver.
  destruct Hex as (X1 & X2 & X3).
  destruct Hv as [-> | [-> | ->]]; simpl; rewrite size_with;
    destruct (bool_decide (uid ∈ Event.rsvp_yes e)) eqn:Ey;
    destruct (bool_decide (uid ∈ Event.rsvp_no e)) eqn:En;
    destruct (bool_decide (uid ∈ Event.rsvp_maybe e)) eqn:Em;
    try apply bool_decide_eq_true in Ey;
    try apply bool_decide_eq_true in En;
    try apply bool_decide_eq_true in Em;
    try tauto; lia.
Qed.

Lemma rsvp_total_rsvp_witness :
  events party_db !! 5%nat = Some party
  ∧ rsvp_exclusive party
  ∧ ∃ e', events (EventViewSet.rsvp (post 1) 5 (Some "no"%string) 100
                    party_db).2 !! 5%nat = Some e'
          ∧ Event.total_rsvp e' = 1%nat.
Proof.
  assert (He : events party_db !! 5%nat = Some party) by (by vm_compute).
  assert (Hx : rsvp_exclusive party)
    by (unfold rsvp_exclusive; simpl; repeat split; set_solver).
  split; [exact He|]. split; [exact Hx|].
  destruct (rsvp_total_rsvp (post 1) 5 (Some "no"%string) 100 party_db
              (EventViewSet.rsvp (post 1) 5 (Some "no"%string) 100 party_db).2
              party He Hx)
    as (uid & e' & Hu & He' & Ht); [by vm_compute|].
  injection Hu as <-. exists e'. split; [exact He'|].
  rewrite Ht. by vm_compute.
Defined.

(** Repeating the answer a user already gave leaves the events table as
    it is (only the RSVP log grows), provided the event's RSVP sets are
    exclusive. *)
Theorem rsvp_repeat_keeps_events (request : Request.t) (pk : nat)
    (new_status : string) (now : Z) (db db' : DB) (uid : nat) (e : Event.t) :
  Request.user request = Some uid →
  events db !! pk = Some e →
  rsvp_exclusive e →
  Event.get_user_rsvp_status e uid = Some new_status →
  EventViewSet.rsvp request pk (Some new_status) now db = (HTTP_200_OK, db') →
  events db' = events db
  ∧ (length (rsvp_logs db) < length (rsvp_logs db'))%nat.
Proof.
  intros Hu He (H1 & H2 & H3) Hs H.
  destruct (rsvp_200_effect _ _ _ _ _ _ H)
    as (uid' & e0 & s & l & Hu' & Hd & He0 & -> & _).
  rewrite Hu in Hu'. injection Hu' as <-.
  injection Hd as <-.
  rewrite He in He0. injection He0 as <-.
  split.
  - simpl. apply insert_id. rewrite He. f_equal.
    unfold Event.get_user_rsvp_status in Hs.
    destruct (bool_decide (uid ∈ Event.rsvp_yes e)) eqn:Ey.
    { apply bool_decide_eq_true in Ey. injection Hs as <-. simpl.
      replace (Event.rsvp_yes e ∖ {[uid]} ∪ {[uid]})
        with (Event.rsvp_yes e)
        by (apply set_eq; intros x; rewrite elem_of_union,
              elem_of_difference, elem_of_singleton;
            destruct (decide (x = uid)); naive_solver).
      replace (Event.rsvp_no e ∖ {[uid]}) with (Event.rsvp_no e)
        by set_solver.
      replace (Event.rsvp_maybe e ∖ {[uid]}) with (Event.rsvp_maybe e)
        by set_solver.
      by destruct e. }
    apply bool_decide_eq_false in Ey.
    destruct (bool_decide (uid ∈ Event.rsvp_no e)) eqn:En.
    { apply bool_decide_eq_true in En. injection Hs as <-. simpl.
      replace (Event.rsvp_no e ∖ {[uid]} ∪ {[uid]})
        with (Event.rsvp_no e)
        by (apply set_eq; intros x; rewrite elem_of_union,
              elem_of_difference, elem_of_singleton;
            destruct (decide (x = uid)); naive_solver).
      replace (Event.rsvp_yes e ∖ {[uid]}) with (Event.rsvp_yes e)
        by set_solver.
      replace (Event.rsvp_maybe e ∖ {[uid]}) with (Event.rsvp_maybe e)
        by set_solver.
      by destruct e. }
    apply bool_decide_eq_false in En.
    destruct (bool_decide (uid ∈ Event.rsvp_maybe e)) eqn:Em; [|done].
    apply bool_decide_eq_true in Em. injection Hs as <-. simpl.
    replace (Event.rsvp_maybe e ∖ {[uid]} ∪ {[uid]})
      with (Event.rsvp_maybe e)
      by (apply set_eq; intros x; rewrite elem_of_union,
            elem_of_difference, elem_of_singleton;
          destruct (decide (x = uid)); naive_solver).
    replace (Event.rsvp_yes e ∖ {[uid]}) with (Event.rsvp_yes e)
      by set_solver.
    replace (Event.rsvp_no e ∖ {[uid]}) with (Event.rsvp_no e)
      by set_solver.
    by destruct e.
  - simpl. rewrite !length_app. simpl. lia.
Qed.

Lemma rsvp_repeat_keeps_events_witness :
  Request.user (post 1) = Some 1%nat
  ∧ events answered_db !! 5%nat = Some answered
  ∧ rsvp_exclusive answered
  ∧ Event.get_user_rsvp_status answered 1 = Some "maybe"%string
  ∧ events (EventViewSet.rsvp (post 1) 5 (Some "maybe"%string) 100
              answered_db).2 = events answered_db.
Proof.
  assert (He : events answered_db !! 5%nat = Some answered)
    by (by vm_compute).
  assert (Hx : rsvp_exclusive answered)
    by (unfold rsvp_exclusive; simpl; repeat split; set_solver).
  assert (Hs : Event.get_user_rsvp_status answered 1 = Some "maybe"%string)
    by (by vm_compute).
  split; [reflexivity|]. split; [exact He|]. split; [exact Hx|].
  split; [exact Hs|].
  destruct (rsvp_repeat_keeps_events (post 1) 5 "maybe" 100 answered_db
              (EventViewSet.rsvp (post 1) 5 (Some "maybe"%string) 100
                 answered_db).2 1 answered eq_refl He Hx Hs) as [Hev _];
    [by vm_compute | exact Hev].
Defined.

(** ** The receivers and the many-to-many managers *)

Lemma set_rsvp_logs_id (db : DB) : set_rsvp_logs (rsvp_logs db ++ []) db = db.
Proof. rewrite app_nil_r. by destruct db. Qed.

Lemma rsvp_receiver_fold (status : string) (instance : nat) (now : Z)
    (ids : list nat) (db : DB) :
  rsvp_changed_loop status instance now ids db
  = set_rsvp_logs
      (rsvp_logs db
       ++ ((λ uid, EventRSVPLog.mk instance uid None status now)
             <$> filter (λ uid, is_Some (users db !! uid)) ids)) db.
Proof.
  unfold rsvp_changed_loop.
  revert db. induction ids as [|i ids IH]; intros db; simpl.
  - by rewrite set_rsvp_logs_id.
  - rewrite filter_cons. destruct (users db !! i) as [u|] eqn:E.
    + rewrite decide_True by eauto. rewrite IH.
      unfold EventRSVPLog_create, set_rsvp_logs. simpl.
      by rewrite <- app_assoc.
    + rewrite decide_False by (by intros [? ?]). apply IH.
Qed.

(** An RSVP receiver acts on [post_add] only. It then appends one log row
    for each added user id that exists, with a null old status and the
    receiver's own status as new status, skips unknown ids silently, and
    changes nothing else; with an empty [pk_set] it does nothing. The
    rows come in the order in which the ids are visited, whatever that
    order [ids] is, so that they are the same rows up to their order. *)
Theorem rsvp_changed_rows (status : string) (instance : nat) (action : string)
    (pk_set : gset nat) (now : Z) (db : DB) (ids : list nat) :
  ids ≡ₚ elements pk_set →
  let rows_of (l : list nat) :=
    (λ uid, EventRSVPLog.mk instance uid None status now)
      <$> filter (λ uid, is_Some (users db !! uid)) l in
  rsvp_changed_loop status instance now ids db
  = set_rsvp_logs (rsvp_logs db ++ rows_of ids) db
  ∧ rows_of ids ≡ₚ rows_of (elements pk_set)
  ∧ ∃ rows,
      rows ≡ₚ rows_of ids
      ∧ rsvp_changed status instance action pk_set now db
        = if bool_decide (action = "post_add"%string)
          then set_rsvp_logs (rsvp_logs db ++ rows) db
          else db.
Proof.
  intros Hperm rows_of.
  assert (Hrows : rows_of ids ≡ₚ rows_of (elements pk_set))
    by (subst rows_of; simpl; by rewrite Hperm).
  split; [apply rsvp_receiver_fold|]. split; [done|].
  exists (rows_of (elements pk_set)). split; [done|].
  unfold rsvp_changed.
  destruct (String.eqb_spec action "post_add") as [->|Hne].
  - rewrite (bool_decide_eq_true_2
               ("post_add"%string = "post_add"%string) eq_refl). simpl.
    destruct (bool_decide (pk_set = ∅)) eqn:E; simpl.
    + apply bool_decide_eq_true in E. subst pk_set.
      subst rows_of. simpl.
      rewrite elements_empty, filter_nil. simpl. by rewrite set_rsvp_logs_id.
    + apply rsvp_receiver_fold.
  - rewrite (bool_decide_eq_false_2 (action = "post_add"%string) Hne).
    done.
Qed.

(** Users 1, 2 and 9 added at once, visited in increasing order: three
    rows in that order, one per user. *)
Lemma rsvp_changed_rows_witness :
  [1; 2; 9]%nat ≡ₚ elements ({[ 1%nat; 2%nat; 9%nat ]} : gset nat)
  ∧ rsvp_changed_loop "yes" 5 100 [1; 2; 9]%nat party_db
    = set_rsvp_logs
        [ EventRSVPLog.mk 5 1 None "yes" 100;
          EventRSVPLog.mk 5 2 None "yes" 100;
          EventRSVPLog.mk 5 9 None "yes" 100 ] party_db
  ∧ ∃ rows,
      rows ≡ₚ [ EventRSVPLog.mk 5 1 None "yes" 100;
                EventRSVPLog.mk 5 2 None "yes" 100;
                EventRSVPLog.mk 5 9 None "yes" 100 ]
      ∧ event_rsvp_yes_changed 5 "post_add" {[ 1%nat; 2%nat; 9%nat ]} 100 party_db
        = set_rsvp_logs rows party_db.
Proof.
  assert (Hperm : [1; 2; 9]%nat ≡ₚ elements ({[ 1%nat; 2%nat; 9%nat ]} : gset nat)).
  { apply NoDup_Permutation.
    - repeat constructor; set_solver.
    - apply NoDup_elements.
    - intros x. rewrite elem_of_elements. set_solver. }
  split; [exact Hperm|].
  destruct (rsvp_changed_rows "yes" 5 "post_add" {[ 1%nat; 2%nat; 9%nat ]} 100
              party_db [1; 2; 9]%nat Hperm) as (Hloop & _ & rows & Hr & Hc).
  split; [exact Hloop|]. exists rows. split; [exact Hr|]. exact Hc.
Defined.

Lemma set_events_id (db : DB) : set_events (events db) db = db.
Proof. by destruct db. Qed.

(** Adding to an RSVP relation a user who is already in it changes
    nothing: the relation is a set, and the receiver, called with an
    empty [pk_set], writes no log row. *)
Theorem rsvp_add_present_noop (pk uid : nat) (now : Z) (db : DB)
    (e : Event.t) :
  events db !! pk = Some e →
  (uid ∈ Event.rsvp_yes e → rsvp_yes_add pk uid now db = db)
  ∧ (uid ∈ Event.rsvp_no e → rsvp_no_add pk uid now db = db)
  ∧ (uid ∈ Event.rsvp_maybe e → rsvp_maybe_add pk uid now db = db).
Proof.
  intros He.
  assert (Hpost : ∀ status d,
            rsvp_changed status pk "post_add" ∅ now d = d).
  { intros status d. unfold rsvp_changed, rsvp_changed_loop.
    by rewrite String.eqb_refl,
      (bool_decide_eq_true_2 ((∅ : gset nat) = ∅) eq_refl). }
  assert (Hsame : ∀ g : Event.t → Event.t, g e = e →
            set_events (alter g pk (events db)) db = db).
  { intros g Hg. rewrite alter_id; [apply set_events_id|].
    intros x Hx. rewrite He in Hx. by injection Hx as <-. }
  split; [|split]; intros Hin.
  - unfold rsvp_yes_add, event_rsvp_yes_changed, related. rewrite He.
    replace ({[uid]} ∖ Event.rsvp_yes e) with (∅ : gset nat) by set_solver.
    rewrite (rsvp_changed_skip _ pk "pre_add") by done. cbv zeta.
    unfold rsvp_yes_through. rewrite Hsame; [apply Hpost|].
    rewrite union_empty_r_L. by destruct e.
  - unfold rsvp_no_add, event_rsvp_no_changed, related. rewrite He.
    replace ({[uid]} ∖ Event.rsvp_no e) with (∅ : gset nat) by set_solver.
    rewrite (rsvp_changed_skip _ pk "pre_add") by done. cbv zeta.
    unfold rsvp_no_through. rewrite Hsame; [apply Hpost|].
    rewrite union_empty_r_L. by destruct e.
  - unfold rsvp_maybe_add, event_rsvp_maybe_changed, related. rewrite He.
    replace ({[uid]} ∖ Event.rsvp_maybe e) with (∅ : gset nat) by set_solver.
    rewrite (rsvp_changed_skip _ pk "pre_add") by done. cbv zeta.
    unfold rsvp_maybe_through. rewrite Hsame; [apply Hpost|].
    rewrite union_empty_r_L. by destruct e.
Qed.

Lemma rsvp_add_present_noop_witness :
  events answered_db !! 5%nat = Some answered
  ∧ rsvp_maybe_add 5 1 100 answered_db = answered_db.
Proof.
  assert (He : events answered_db !! 5%nat = Some answered)
    by (by vm_compute).
  split; [exact He|].
  destruct (rsvp_add_present_noop 5 1 100 answered_db answered He)
    as (_ & _ & H).
  apply H. simpl. set_solver.
Defined.

(** ** Listing and reading events *)

(** Every event of the user's queryset that is still open for RSVP
    ([is_upcoming]) is returned by the [upcoming] action and is never
    returned by the filter [is_upcoming=false]: both compare the date
    only, so they may add events that started earlier today, but they
    never lose an open one. *)
Theorem upcoming_keeps_open_events (db : DB) (uid pk : nat) (now : Z)
    (e : Event.t) :
  EventViewSet.get_queryset db uid !! pk = Some e →
  Event.time e < 86400 →
  Event.is_upcoming now e = true →
  EventViewSet_upcoming db uid now !! pk = Some e
  ∧ EventFilter_filter_upcoming now (EventViewSet.get_queryset db uid) true
      !! pk = Some e
  ∧ EventFilter_filter_upcoming now (EventViewSet.get_queryset db uid) false
      !! pk = None.
Proof.
  intros Hq Ht Hup.
  unfold Event.is_upcoming, Event.combine in Hup. apply Z.ltb_lt in Hup.
  assert (Hday : now / 86400 <= Event.date e).
  { apply Z.lt_succ_r. apply Z.div_lt_upper_bound; lia. }
  unfold EventViewSet_upcoming, EventFilter_filter_upcoming.
  split; [|split].
  - by apply map_lookup_filter_Some.
  - by apply map_lookup_filter_Some.
  - apply map_lookup_filter_None. right. intros e' He'. simpl.
    rewrite Hq in He'. injection He' as <-. lia.
Qed.

Lemma upcoming_keeps_open_events_witness :
  EventViewSet.get_queryset party_db 1 !! 5%nat = Some party
  ∧ Event.time party < 86400
  ∧ Event.is_upcoming 100 party = true
  ∧ EventViewSet_upcoming party_db 1 100 !! 5%nat = Some party.
Proof.
  assert (Hq : EventViewSet.get_queryset party_db 1 !! 5%nat = Some party)
    by (by vm_compute).
  split; [exact Hq|]. split; [simpl; lia|]. split; [reflexivity|].
  destruct (upcoming_keeps_open_events party_db 1 5 100 party Hq)
    as (H & _); [simpl; lia | reflexivity | exact H].
Defined.

(** For a user who is not staff, the events they can list are exactly the
    active events they may read: the queryset filter and
    [Event.user_can_view] agree, so retrieving a listed event is never
    refused. *)
Theorem event_listed_iff_readable (db : DB) (uid pk : nat) (e : Event.t) :
  events db !! pk = Some e →
  Event.is_active e = true →
  user_is_staff db uid = false →
  EventViewSet.get_queryset db uid !! pk = Some e
  ↔ IsEventOwnerOrAdmin.has_object_permission db "GET" uid e = true.
Proof.
  intros He Ha Hs.
  rewrite event_get_queryset_Some, Hs.
  unfold IsEventOwnerOrAdmin.has_object_permission. simpl.
  rewrite user_can_view_Q. split.
  - intros (_ & _ & [?|?]); done.
  - intros H. split; [done|]. split; [done|]. by right.
Qed.

Lemma event_listed_iff_readable_witness :
  events invited_db !! 6%nat = Some invited
  ∧ Event.is_active invited = true
  ∧ user_is_staff invited_db 2 = false
  ∧ (EventViewSet.get_queryset invited_db 2 !! 6%nat = Some invited
     ↔ IsEventOwnerOrAdmin.has_object_permission invited_db "GET" 2 invited
       = true).
Proof.
  assert (He : events invited_db !! 6%nat = Some invited) by (by vm_compute).
  split; [exact He|]. split; [reflexivity|]. split; [reflexivity|].
  apply (event_listed_iff_readable invited_db 2 6 invited He);
    reflexivity.
Defined.

(** ** Event analytics *)

Lemma fold_add_users (l : list nat) (acc : gset nat) :
  foldr (λ user acc', acc' ∪ {[user]}) acc l = acc ∪ list_to_set l.
Proof.
  induction l as [|x l IH]; simpl.
  - set_solver.
  - rewrite IH. set_solver.
Qed.

Lemma set_fold_add_users (X acc : gset nat) :
  set_fold (λ user acc', acc' ∪ {[user]}) acc X = acc ∪ X.
Proof.
  unfold set_fold. simpl. rewrite fold_add_users.
  by rewrite list_to_set_elements_L.
Qed.

Lemma fold_add_groups (gs : gmap nat Group.t) (l : list nat)
    (acc : gset nat) (u : nat) :
  u ∈ foldr (λ group acc',
               match gs !! group with
               | Some g =>
                   set_fold (λ user acc'', acc'' ∪ {[user]}) acc'
                            (Group.members g)
               | None => acc'
               end) acc l
  ↔ u ∈ acc ∨ ∃ gid g, gid ∈ l ∧ gs !! gid = Some g ∧ u ∈ Group.members g.
Proof.
  induction l as [|x l IH]; simpl.
  - split; [by left|]. intros [?|(gid & g & Hin & _)]; [done|].
    by apply elem_of_nil in Hin.
  - destruct (gs !! x) as [g|] eqn:E.
    + rewrite set_fold_add_users, elem_of_union, IH. split.
      * intros [[?|(gid & g' & Hin & Hg & Hu)]|Hu].
        -- by left.
        -- right. exists gid, g'. split; [apply elem_of_cons; by right|done].
        -- right. exists x, g. split; [apply elem_of_cons; by left|done].
      * intros [?|(gid & g' & Hin & Hg & Hu)]; [by left; left|].
        apply elem_of_cons in Hin as [->|Hin].
        -- rewrite E in Hg. injection Hg as <-. by right.
        -- left. right. by exists gid, g'.
    + rewrite IH. split.
      * intros [?|(gid & g' & Hin & Hg & Hu)]; [by left|].
        right. exists gid, g'. split; [apply elem_of_cons; by right|done].
      * intros [?|(gid & g' & Hin & Hg & Hu)]; [by left|].
        apply elem_of_cons in Hin as [->|Hin]; [congruence|].
        right. by exists gid, g'.
Qed.

(** For an event that is not public, [get_total_visible_users] is the
    number of distinct users who are listed in [visible_to_users] or are
    members of a group of [visible_to_groups]: a user reached both ways,
    or through several groups, is counted once. These are the users who
    can view the event, except that the creator is counted only when
    listed or in such a group. *)
Theorem total_visible_users_counts (db : DB) (e : Event.t) :
  Event.is_public e = false →
  ∃ S : gset nat,
    EventViewSet_get_total_visible_users db e = size S
    ∧ (∀ u, u ∈ S
            ↔ u ∈ Event.visible_to_users e
              ∨ groups_with_member (groups db) (Event.visible_to_groups e) u
                = true)
    ∧ (∀ u, Event.user_can_view (groups db) e u = true
            ↔ u ∈ S ∨ Event.created_by e = u).
Proof.
  intros Hp. unfold EventViewSet_get_total_visible_users. rewrite Hp.
  cbv zeta. eexists. split; [reflexivity|].
  assert (Hin : ∀ u,
    u ∈ set_fold
          (λ group acc,
             match groups db !! group with
             | Some g =>
                 set_fold (λ user acc', acc' ∪ {[user]}) acc (Group.members g)
             | None => acc
             end)
          (set_fold (λ user acc, acc ∪ {[user]}) (∅ : gset nat)
                    (Event.visible_to_users e))
          (Event.visible_to_groups e)
    ↔ u ∈ Event.visible_to_users e
      ∨ groups_with_member (groups db) (Event.visible_to_groups e) u = true).
  { intros u. unfold set_fold at 1. simpl.
    rewrite fold_add_groups, set_fold_add_users, groups_with_member_true.
    rewrite union_empty_l_L.
    split; intros [?|(gid & g & Hg & ?)]; [by left| |by left|].
    - right. exists gid, g. by rewrite <- elem_of_elements.
    - right. exists gid, g. by rewrite elem_of_elements. }
  split; [exact Hin|].
  intros u. rewrite Hin, user_can_view_Q, Hp. simpl.
  rewrite !orb_true_iff, !bool_decide_eq_true. tauto.
Qed.

Lemma total_visible_users_counts_witness :
  Event.is_public invited = false
  ∧ EventViewSet_get_total_visible_users invited_db invited = 2%nat
  ∧ ∃ S : gset nat,
      EventViewSet_get_total_visible_users invited_db invited = size S
      ∧ (Event.user_can_view (groups invited_db) invited 1 = true
         ↔ 1%nat ∈ S ∨ Event.created_by invited = 1%nat).
Proof.
  split; [reflexivity|]. split; [by vm_compute|].
  destruct (total_visible_users_counts invited_db invited eq_refl)
    as (S & Hs & _ & Hv).
  exists S. split; [exact Hs | apply Hv].
Defined.

Lemma rsvp_rows_split (pk : nat) (a : Z) (m : nat)
    (rows : list EventRSVPLog.t) :
  Nat.add
    (length (filter (λ r, EventRSVPLog.event r = pk
                          ∧ EventRSVPLog.changed_at r / 86400 = a) rows))
    (length (filter (λ r, EventRSVPLog.event r = pk
                          ∧ a + 1 <= EventRSVPLog.changed_at r / 86400
                            < a + 1 + Z.of_nat m) rows))
  = length (filter (λ r, EventRSVPLog.event r = pk
                         ∧ a <= EventRSVPLog.changed_at r / 86400
                           < a + Z.of_nat (S m)) rows).
Proof.
  induction rows as [|r rows IH]; [done|].
  rewrite !filter_cons.
  repeat case_decide; simpl; lia.
Qed.

Lemma rsvp_rows_sum (pk : nat) (rows : list EventRSVPLog.t) (m : nat)
    (a : Z) :
  sum_list ((λ d, length (filter (λ r, EventRSVPLog.event r = pk
                                       ∧ EventRSVPLog.changed_at r / 86400 = d)
                                 rows))
              <$> seqZ a (Z.of_nat m))
  = length (filter (λ r, EventRSVPLog.event r = pk
                         ∧ a <= EventRSVPLog.changed_at r / 86400
                           < a + Z.of_nat m) rows).
Proof.
  revert a. induction m as [|m IH]; intros a.
  - simpl. induction rows as [|r rows IHr]; [done|].
    rewrite filter_cons. case_decide; [lia | done].
  - rewrite Nat2Z.inj_succ, seqZ_cons by lia. simpl.
    replace (Z.pred (Z.succ (Z.of_nat m))) with (Z.of_nat m) by lia.
    replace (Z.succ a) with (a + 1) by lia.
    rewrite IH. rewrite <- Nat2Z.inj_succ. apply rsvp_rows_split.
Qed.

(** The [daily_rsvp] series of the event analytics accounts for every
    RSVP-log row of the event dated from 30 days ago up to today, once:
    its counts add up to the number of those rows. *)
Theorem daily_rsvp_total (db : DB) (pk : nat) (now : Z) :
  sum_list (dc_count <$> EventViewSet_daily_rsvp db pk now)
  = length (filter (λ r, EventRSVPLog.event r = pk
                         ∧ now / 86400 - 30
                           <= EventRSVPLog.changed_at r / 86400
                           <= now / 86400) (rsvp_logs db)).
Proof.
  unfold EventViewSet_daily_rsvp. cbv zeta.
  rewrite daily_loop_seqZ, app_nil_l.
  generalize (now / 86400). intros today.
  replace (today + 1 - (today - 30)) with (Z.of_nat 31) by lia.
  rewrite <- list_fmap_compose. unfold compose. simpl dc_count.
  unfold rsvp_count. rewrite rsvp_rows_sum.
  f_equal. apply list_filter_iff. intros r. lia.
Qed.

(** ** The RSVP filter *)

(** When the RSVP sets of the listed events are exclusive, the filter
    [rsvp_status=value] returns, for each of the three statuses, exactly
    the events for which [get_user_rsvp_status] reports that status. *)
Theorem filter_rsvp_status_agrees (uid : nat) (queryset : gmap nat Event.t)
    (value : string) (pk : nat) (e : Event.t) :
  (value = "yes" ∨ value = "no" ∨ value = "maybe")%string →
  (∀ pk' e', queryset !! pk' = Some e' → rsvp_exclusive e') →
  EventFilter_filter_rsvp_status (Some uid) queryset value !! pk = Some e
  ↔ queryset !! pk = Some e
    ∧ Event.get_user_rsvp_status e uid = Some value.
Proof.
  intros Hv Hex. unfold EventFilter_filter_rsvp_status,
    Event.get_user_rsvp_status.
  destruct Hv as [-> | [-> | ->]]; simpl; rewrite map_lookup_filter_Some;
    simpl; split; intros [Hq H]; (split; [done|]);
    destruct (Hex pk e Hq) as (H1 & H2 & H3);
    destruct (bool_decide (uid ∈ Event.rsvp_yes e)) eqn:Ey;
    destruct (bool_decide (uid ∈ Event.rsvp_no e)) eqn:En;
    destruct (bool_decide (uid ∈ Event.rsvp_maybe e)) eqn:Em;
    try apply bool_decide_eq_true in Ey;
    try apply bool_decide_eq_false in Ey;
    try apply bool_decide_eq_true in En;
    try apply bool_decide_eq_false in En;
    try apply bool_decide_eq_true in Em;
    try apply bool_decide_eq_false in Em;
    try done; try set_solver.
Qed.

Lemma filter_rsvp_status_agrees_witness :
  (∀ pk' e', events answered_db !! pk' = Some e' → rsvp_exclusive e')
  ∧ (EventFilter_filter_rsvp_status (Some 1%nat) (events answered_db) "maybe"
       !! 5%nat = Some answered
     ↔ events answered_db !! 5%nat = Some answered
       ∧ Event.get_user_rsvp_status answered 1 = Some "maybe"%string).
Proof.
  assert (Hex : ∀ pk' e', events answered_db !! pk' = Some e' →
                          rsvp_exclusive e').
  { intros pk' e'. unfold answered_db. simpl.
    intros [_ <-]%lookup_singleton_Some.
    unfold rsvp_exclusive. simpl. repeat split; set_solver. }
  split; [exact Hex|].
  apply (filter_rsvp_status_agrees 1 (events answered_db) "maybe" 5 answered);
    [right; right; reflexivity | exact Hex].
Defined.

(** ** Acknowledging broadcasts *)

Lemma can_view_in_queryset (db : DB) (now : Z) (uid pk : nat)
    (b : Broadcast.t) :
  broadcasts db !! pk = Some b →
  IsBroadcastOwnerOrAdmin.can_view_broadcast db now uid b = true →
  BroadcastViewSet.get_queryset db uid !! pk = Some b.
Proof.
  intros Hb Hv.
  unfold IsBroadcastOwnerOrAdmin.can_view_broadcast, Broadcast.is_visible
    in Hv.
  destruct (Broadcast.is_active b) eqn:Ea;
    [|by rewrite andb_false_r in Hv].
  destruct ((Broadcast.start_date b <=? now)
            && (now <=? Broadcast.end_date b)
            && Broadcast.is_published b); [|done].
  simpl in Hv.
  unfold BroadcastViewSet.get_queryset, BroadcastViewSet.queryset.
  destruct (user_is_staff db uid); rewrite !map_lookup_filter_Some; simpl.
  - done.
  - split; [done|].
    destruct (String.eqb (Broadcast.audience_type b) "all"); [done|].
    destruct (String.eqb (Broadcast.audience_type b) "groups");
      [by rewrite Hv|].
    destruct (String.eqb (Broadcast.audience_type b) "users"); [|done].
    simpl. by rewrite Hv.
Qed.

Lemma acknowledge_refused (request : Request.t) (pk : nat)
    (data : option bool) (now : Z) (db : DB) :
  (BroadcastViewSet.acknowledge request pk data now db).1 ≠ HTTP_200_OK →
  (BroadcastViewSet.acknowledge request pk data now db).2 = db.
Proof.
  unfold BroadcastViewSet.acknowledge, get_object,
    BroadcastAcknowledgeSerializer.
  destruct (Request.user request) as [uid|]; [|done].
  destruct (negb _); [done|].
  destruct (BroadcastViewSet.get_queryset db uid !! pk) as [b|]; [|done].
  destruct (CanAcknowledgeBroadcast.has_object_permission db now uid b);
    [|done].
  destruct data as [[]|]; done.
Qed.

(** A well-formed acknowledge request succeeds exactly when
    [can_view_broadcast] holds for the caller at that moment: the
    permission of the action repeats the view predicate, and whoever
    passes it is in the queryset, so the lookup cannot fail first. *)
Theorem acknowledge_ok_iff_can_view (request : Request.t) (pk : nat)
    (want : bool) (now : Z) (db : DB) (uid : nat) (b : Broadcast.t) :
  Request.user request = Some uid →
  Request.method request = "POST"%string →
  broadcasts db !! pk = Some b →
  (BroadcastViewSet.acknowledge request pk (Some want) now db).1 = HTTP_200_OK
  ↔ IsBroadcastOwnerOrAdmin.can_view_broadcast db now uid b = true.
Proof.
  intros Hu Hm Hb. split.
  - intros H.
    destruct (BroadcastViewSet.acknowledge request pk (Some want) now db)
      as [r db'] eqn:E. simpl in H. subst r.
    destruct (acknowledge_200_inv _ _ _ _ _ _ E)
      as (uid' & b' & w & Hu' & _ & Hq & Hp & _).
    rewrite Hu in Hu'. injection Hu' as <-.
    apply broadcast_get_queryset_Some in Hq. rewrite Hb in Hq.
    injection Hq as <-. exact Hp.
  - intros Hv.
    unfold BroadcastViewSet.acknowledge, get_object,
      BroadcastAcknowledgeSerializer.
    rewrite Hu, Hm. simpl negb. cbv iota.
    rewrite (can_view_in_queryset db now uid pk b Hb Hv).
    change (CanAcknowledgeBroadcast.has_object_permission db now uid b)
      with (IsBroadcastOwnerOrAdmin.can_view_broadcast db now uid b).
    rewrite Hv. by destruct want.
Qed.

Lemma acknowledge_ok_iff_can_view_witness :
  Request.user (post 1) = Some 1%nat
  ∧ Request.method (post 1) = "POST"%string
  ∧ broadcasts memo_db !! 8%nat = Some memo
  ∧ (BroadcastViewSet.acknowledge (post 1) 8 (Some true) 50 memo_db).1
    = HTTP_200_OK.
Proof.
  assert (Hb : broadcasts memo_db !! 8%nat = Some memo) by (by vm_compute).
  split; [reflexivity|]. split; [reflexivity|]. split; [exact Hb|].
  apply (acknowledge_ok_iff_can_view (post 1) 8 true 50 memo_db 1 memo
           eq_refl eq_refl Hb).
  by vm_compute.
Defined.

(** Acknowledging and then withdrawing the acknowledgment restores the
    store exactly, for a user who had not acknowledged before. *)
Theorem acknowledge_then_withdraw (request : Request.t) (pk : nat)
    (now now' : Z) (db db1 db2 : DB) (uid : nat) (b : Broadcast.t) :
  Request.user request = Some uid →
  broadcasts db !! pk = Some b →
  uid ∉ Broadcast.acknowledged_by b →
  BroadcastViewSet.acknowledge request pk (Some true) now db
  = (HTTP_200_OK, db1) →
  BroadcastViewSet.acknowledge request pk (Some false) now' db1
  = (HTTP_200_OK, db2) →
  db2 = db.
Proof.
  intros Hu Hb Hn H1 H2.
  destruct (acknowledge_200_inv _ _ _ _ _ _ H1)
    as (u1 & b1 & w1 & Hu1 & _ & _ & _ & Hd1 & E1).
  destruct (acknowledge_200_inv _ _ _ _ _ _ H2)
    as (u2 & b2 & w2 & Hu2 & _ & _ & _ & Hd2 & E2).
  rewrite Hu in Hu1, Hu2. injection Hu1 as <-. injection Hu2 as <-.
  injection Hd1 as <-. injection Hd2 as <-.
  rewrite (acknowledged_by_add_eq _ _ _ _ Hb) in E1.
  assert (Hb1 : broadcasts db1 !! pk
                = Some (Broadcast.set_acknowledged_by
                          (Broadcast.acknowledged_by b ∪ {[uid]}) b))
    by (rewrite E1; apply lookup_insert_eq).
  rewrite (acknowledged_by_remove_eq _ _ _ _ Hb1) in E2.
  rewrite E2, E1. unfold set_broadcasts at 1 2. simpl.
  rewrite insert_insert_eq.
  replace ((Broadcast.acknowledged_by b ∪ {[uid]}) ∖ {[uid]})
    with (Broadcast.acknowledged_by b) by set_solver.
  replace (Broadcast.set_acknowledged_by (Broadcast.acknowledged_by b)
             (Broadcast.set_acknowledged_by
                (Broadcast.acknowledged_by b ∪ {[uid]}) b))
    with b by (by destruct b).
  rewrite insert_id by done. by destruct db.
Qed.

Lemma acknowledge_then_withdraw_witness :
  Request.user (post 1) = Some 1%nat
  ∧ broadcasts memo_db !! 8%nat = Some memo
  ∧ (1%nat ∉ Broadcast.acknowledged_by memo)
  ∧ (BroadcastViewSet.acknowledge (post 1) 8 (Some false) 60
       (BroadcastViewSet.acknowledge (post 1) 8 (Some true) 50 memo_db).2).2
    = memo_db.
Proof.
  assert (Hb : broadcasts memo_db !! 8%nat = Some memo) by (by vm_compute).
  assert (Hn : 1%nat ∉ Broadcast.acknowledged_by memo)
    by (simpl; set_solver).
  split; [reflexivity|]. split; [exact Hb|]. split; [exact Hn|].
  apply (acknowledge_then_withdraw (post 1) 8 50 60 memo_db
           (BroadcastViewSet.acknowledge (post 1) 8 (Some true) 50 memo_db).2
           _ 1 memo eq_refl Hb Hn); by vm_compute.
Defined.

(** For a broadcast addressed to listed users, the acknowledge action
    keeps the acknowledged set inside [target_users], whatever the request
    and its answer; the acknowledgment rate then lies between 0 and 100. *)
Theorem acknowledge_keeps_within_targets (request : Request.t) (pk : nat)
    (data : option bool) (now : Z) (db : DB) (b : Broadcast.t) :
  broadcasts db !! pk = Some b →
  Broadcast.audience_type b = "users"%string →
  Broadcast.acknowledged_by b ⊆ Broadcast.target_users b →
  ∃ b',
    broadcasts (BroadcastViewSet.acknowledge request pk data now db).2 !! pk
    = Some b'
    ∧ Broadcast.audience_type b' = "users"%string
    ∧ Broadcast.acknowledged_by b' ⊆ Broadcast.target_users b'
    ∧ (0 <= Broadcast.acknowledgment_rate
              (users (BroadcastViewSet.acknowledge request pk data now db).2)
              (groups (BroadcastViewSet.acknowledge request pk data now db).2)
              b')%Q
    ∧ (Broadcast.acknowledgment_rate
         (users (BroadcastViewSet.acknowledge request pk data now db).2)
         (groups (BroadcastViewSet.acknowledge request pk data now db).2)
         b' <= 100)%Q.
Proof.
  intros Hb Ha Hsub.
  assert (Hrate : ∀ us gs b', Broadcast.audience_type b' = "users"%string →
            Broadcast.acknowledged_by b' ⊆ Broadcast.target_users b' →
            (0 <= Broadcast.acknowledgment_rate us gs b')%Q
            ∧ (Broadcast.acknowledgment_rate us gs b' <= 100)%Q).
  { intros us gs b' Ha' Hsub'.
    unfold Broadcast.acknowledgment_rate, Broadcast.total_recipients.
    rewrite Ha'. simpl String.eqb. cbv iota zeta.
    apply subseteq_size in Hsub'.
    destruct (size (Broadcast.target_users b')) as [|n] eqn:En;
      simpl Nat.eqb; cbv iota; [done|].
    destruct (float_rate_bounds
                (Z.of_nat (size (Broadcast.acknowledged_by b')))
                (Z.of_nat (S n))) as (H0 & H100 & _); [lia | lia |].
    split; [done|]. apply H100. lia. }
  destruct (BroadcastViewSet.acknowledge request pk data now db)
    as [r db'] eqn:E.
  destruct (decide (r = HTTP_200_OK)) as [->|Hr].
  - destruct (acknowledge_200_inv _ _ _ _ _ _ E)
      as (uid & b0 & w & Hu & _ & Hq & Hp & _ & Edb').
    pose proof (broadcast_get_queryset_Some _ _ _ _ Hq) as Hb0.
    rewrite Hb in Hb0. injection Hb0 as <-.
    assert (Hin : uid ∈ Broadcast.target_users b).
    { unfold CanAcknowledgeBroadcast.has_object_permission in Hp.
      destruct (negb (Broadcast.is_visible now b)); [done|].
      rewrite Ha in Hp. simpl in Hp. by apply bool_decide_eq_true in Hp. }
    simpl. destruct w.
    + rewrite (acknowledged_by_add_eq _ _ _ _ Hb) in Edb'. subst db'.
      eexists. split; [apply lookup_insert_eq|]. split; [done|].
      split; [simpl; set_solver|]. apply Hrate; [done | simpl; set_solver].
    + rewrite (acknowledged_by_remove_eq _ _ _ _ Hb) in Edb'. subst db'.
      eexists. split; [apply lookup_insert_eq|]. split; [done|].
      split; [simpl; set_solver|]. apply Hrate; [done | simpl; set_solver].
  - pose proof (acknowledge_refused request pk data now db) as Hsame.
    rewrite E in Hsame. simpl in *. rewrite Hsame by done.
    exists b. split; [done|]. split; [done|]. split; [done|].
    by apply Hrate.
Qed.

Lemma acknowledge_keeps_within_targets_witness :
  broadcasts memo_db !! 8%nat = Some memo
  ∧ Broadcast.audience_type memo = "users"%string
  ∧ Broadcast.acknowledged_by memo ⊆ Broadcast.target_users memo
  ∧ ∃ b',
      broadcasts (BroadcastViewSet.acknowledge (post 1) 8 (Some true) 50
                    memo_db).2 !! 8%nat = Some b'
      ∧ Broadcast.acknowledged_by b' ⊆ Broadcast.target_users b'.
Proof.
  assert (Hb : broadcasts memo_db !! 8%nat = Some memo) by (by vm_compute).
  assert (Hsub : Broadcast.acknowledged_by memo ⊆ Broadcast.target_users memo)
    by (simpl; set_solver).
  split; [exact Hb|]. split; [reflexivity|]. split; [exact Hsub|].
  destruct (acknowledge_keeps_within_targets (post 1) 8 (Some true) 50
              memo_db memo Hb eq_refl Hsub) as (b' & Hb' & _ & Hs & _).
  by exists b'.
Defined.

(** ** Broadcast analytics and the list filter *)

(** The analytics action asks for nothing beyond authentication on a
    GET: for an active broadcast with audience "all" every authenticated
    user, staff or not, receives the figures, whether or not the
    broadcast is published or within its window. *)
Theorem analytics_open_to_audience (request : Request.t) (pk : nat)
    (now : Z) (db : DB) (uid : nat) (b : Broadcast.t) :
  Request.user request = Some uid →
  Request.method request = "GET"%string →
  broadcasts db !! pk = Some b →
  Broadcast.is_active b = true →
  Broadcast.audience_type b = "all"%string →
  ∃ a,
    BroadcastViewSet.analytics request pk now db = inr a
    ∧ ba_total_recipients a
      = Broadcast.total_recipients (users db) (groups db) b
    ∧ ba_total_views a = size (Broadcast.viewed_by b)
    ∧ ba_total_acknowledgments a = size (Broadcast.acknowledged_by b).
Proof.
  intros Hu Hm Hb Ha Haud.
  assert (Hq : BroadcastViewSet.get_queryset db uid !! pk = Some b).
  { unfold BroadcastViewSet.get_queryset, BroadcastViewSet.queryset.
    destruct (user_is_staff db uid); rewrite !map_lookup_filter_Some; simpl.
    - done.
    - rewrite Haud. done. }
  unfold BroadcastViewSet.analytics, get_object,
    IsAdminOrReadOnly.has_permission,
    IsAdminOrReadOnly.has_object_permission.
  rewrite Hu, Hm, Hq. simpl. eexists. split; [reflexivity|]. done.
Qed.

Lemma analytics_open_to_audience_witness :
  Request.user (get 1) = Some 1%nat
  ∧ Request.method (get 1) = "GET"%string
  ∧ broadcasts draft_db !! 3%nat = Some draft
  ∧ Broadcast.is_visible 50 draft = false
  ∧ ∃ a, BroadcastViewSet.analytics (get 1) 3 50 draft_db = inr a.
Proof.
  assert (Hb : broadcasts draft_db !! 3%nat = Some draft) by (by vm_compute).
  split; [reflexivity|]. split; [reflexivity|]. split; [exact Hb|].
  split; [reflexivity|].
  destruct (analytics_open_to_audience (get 1) 3 50 draft_db 1 draft
              eq_refl eq_refl Hb eq_refl eq_refl) as (a & Ha & _).
  by exists a.
Defined.

(** The list filter [is_active] and the model property [is_visible]
    agree: with [true] the filter keeps exactly the broadcasts that are
    visible now, with [false] exactly those that are not, so the two
    answers split any queryset in two. *)
Theorem filter_is_active_matches_is_visible (now : Z)
    (queryset : gmap nat Broadcast.t) (value : bool) (pk : nat)
    (b : Broadcast.t) :
  BroadcastFilter_filter_is_active now queryset value !! pk = Some b
  ↔ queryset !! pk = Some b ∧ Broadcast.is_visible now b = value.
Proof.
  assert (Hvis : Broadcast.is_visible now b = true
                 ↔ Broadcast.start_date b <= now
                   ∧ now <= Broadcast.end_date b
                   ∧ Broadcast.is_published b = true
                   ∧ Broadcast.is_active b = true).
  { unfold Broadcast.is_visible.
    rewrite !andb_true_iff, !Z.leb_le. tauto. }
  unfold BroadcastFilter_filter_is_active.
  destruct value; rewrite map_lookup_filter_Some; simpl.
  - by rewrite Hvis.
  - rewrite <- Hvis. by rewrite not_true_iff_false.
Qed.

(** ** Groups *)

Lemma group_get_queryset_Some (db : DB) (uid pk : nat) (g : Group.t) :
  GroupViewSet.get_queryset db uid !! pk = Some g
  ↔ groups db !! pk = Some g
    ∧ Group.is_active g = true
    ∧ (user_is_staff db uid = true
       ∨ (String.eqb (Group.group_type g) "public"
          || bool_decide (uid ∈ Group.members g)
          || bool_decide (uid ∈ Group.owners g)
          || bool_decide (Group.created_by g = uid)) = true).
Proof.
  unfold GroupViewSet.get_queryset, GroupViewSet.queryset.
  destruct (user_is_staff db uid); rewrite !map_lookup_filter_Some; simpl.
  - tauto.
  - split; [tauto|]. intros (? & ? & [?|?]); done.
Qed.

(** Joining a group through the API succeeds only for an owner of the
    group or a staff user, and only on an active public group; it then
    adds the caller to the members and changes nothing else. Every other
    join request leaves the store unchanged: an ordinary user cannot join
    even a public group this way. *)
Theorem group_join_effect (request : Request.t) (pk : nat) (db : DB) :
  match (GroupViewSet.join request pk db).1 with
  | HTTP_200_OK =>
      ∃ uid g,
        Request.user request = Some uid
        ∧ groups db !! pk = Some g
        ∧ Group.is_active g = true
        ∧ Group.group_type g = "public"%string
        ∧ (uid ∈ Group.owners g ∨ user_is_staff db uid = true)
        ∧ (GroupViewSet.join request pk db).2
          = set_groups
              (<[pk := set_group_members (Group.members g ∪ {[uid]}) g]>
                 (groups db)) db
  | _ => (GroupViewSet.join request pk db).2 = db
  end.
Proof.
  unfold GroupViewSet.join, get_object,
    IsGroupOwnerOrAdmin.has_object_permission.
  destruct (Request.user request) as [uid|]; [|done].
  destruct (String.eqb_spec (Request.method request) "POST") as [Em|Em];
    simpl; [|done].
  rewrite Em. simpl.
  destruct (GroupViewSet.get_queryset db uid !! pk) as [g|] eqn:Hq; [|done].
  apply group_get_queryset_Some in Hq as (Hg & Ha & _).
  destruct (bool_decide (uid ∈ Group.owners g) || user_is_staff db uid)
    eqn:Hp; [|done].
  destruct (String.eqb_spec (Group.group_type g) "public") as [Et|Et];
    simpl; [|done].
  exists uid, g. split; [done|]. split; [done|]. split; [done|].
  split; [done|]. split.
  - apply orb_true_iff in Hp as [Hp|Hp]; [left|by right].
    by apply bool_decide_eq_true in Hp.
  - unfold GroupViewSet.members_add.
    by rewrite (alter_lookup_insert _ _ _ _ Hg).
Qed.

(** Leaving a group through the API succeeds only for an owner of the
    group or a staff user; it then removes the caller from the members
    (which changes nothing when the caller was no member) and touches
    nothing else. An ordinary member cannot leave this way. *)
Theorem group_leave_effect (request : Request.t) (pk : nat) (db : DB) :
  match (GroupViewSet.leave request pk db).1 with
  | HTTP_200_OK =>
      ∃ uid g,
        Request.user request = Some uid
        ∧ groups db !! pk = Some g
        ∧ (uid ∈ Group.owners g ∨ user_is_staff db uid = true)
        ∧ (GroupViewSet.leave request pk db).2
          = set_groups
              (<[pk := set_group_members (Group.members g ∖ {[uid]}) g]>
                 (groups db)) db
        ∧ (uid ∉ Group.members g → (GroupViewSet.leave request pk db).2 = db)
  | _ => (GroupViewSet.leave request pk db).2 = db
  end.
Proof.
  unfold GroupViewSet.leave, get_object,
    IsGroupOwnerOrAdmin.has_object_permission.
  destruct (Request.user request) as [uid|]; [|done].
  destruct (String.eqb_spec (Request.method request) "POST") as [Em|Em];
    simpl; [|done].
  rewrite Em. simpl.
  destruct (GroupViewSet.get_queryset db uid !! pk) as [g|] eqn:Hq; [|done].
  apply group_get_queryset_Some in Hq as (Hg & Ha & _).
  destruct (bool_decide (uid ∈ Group.owners g) || user_is_staff db uid)
    eqn:Hp; [|done].
  simpl. exists uid, g. split; [done|]. split; [done|]. split.
  { apply orb_true_iff in Hp as [Hp|Hp]; [left|by right].
    by apply bool_decide_eq_true in Hp. }
  unfold GroupViewSet.members_remove.
  rewrite (alter_lookup_insert _ _ _ _ Hg). split; [done|].
  intros Hn.
  replace (Group.members g ∖ {[uid]}) with (Group.members g) by set_solver.
  replace (set_group_members (Group.members g) g) with g by (by destruct g).
  rewrite insert_id by done. by destruct db.
Qed.

(** An owner or staff user who joins a public group and then leaves it
    restores the store, when the caller was not a member before. *)
Theorem group_join_then_leave (request : Request.t) (pk : nat) (db : DB)
    (uid : nat) (g : Group.t) :
  Request.user request = Some uid →
  Request.method request = "POST"%string →
  groups db !! pk = Some g →
  Group.is_active g = true →
  Group.group_type g = "public"%string →
  uid ∈ Group.owners g ∨ user_is_staff db uid = true →
  uid ∉ Group.members g →
  (GroupViewSet.join request pk db).1 = HTTP_200_OK
  ∧ (∃ g1, groups (GroupViewSet.join request pk db).2 !! pk = Some g1
           ∧ uid ∈ Group.members g1)
  ∧ GroupViewSet.leave request pk (GroupViewSet.join request pk db).2
    = (HTTP_200_OK, db).
Proof.
  intros Hu Hm Hg Ha Ht Hp Hn.
  assert (Hperm : ∀ d : DB, users d = users db → ∀ g' : Group.t,
            Group.owners g' = Group.owners g →
            (bool_decide (uid ∈ Group.owners g') || user_is_staff d uid)
            = true).
  { intros d Hd g' Ho. unfold user_is_staff. rewrite Hd, Ho.
    destruct Hp as [Hp|Hp].
    - by rewrite bool_decide_eq_true_2.
    - unfold user_is_staff in Hp. rewrite Hp. apply orb_true_r. }
  assert (Hq : ∀ d : DB, users d = users db → ∀ g' : Group.t,
            groups d !! pk = Some g' →
            Group.is_active g' = true →
            Group.group_type g' = "public"%string →
            GroupViewSet.get_queryset d uid !! pk = Some g').
  { intros d Hd g' Hg' Ha' Ht'. apply group_get_queryset_Some.
    split; [done|]. split; [done|]. right. by rewrite Ht'. }
  set (g1 := set_group_members (Group.members g ∪ {[uid]}) g).
  set (db1 := set_groups (<[pk := g1]> (groups db)) db).
  assert (E1 : GroupViewSet.join request pk db = (HTTP_200_OK, db1)).
  { unfold GroupViewSet.join, get_object,
      IsGroupOwnerOrAdmin.has_object_permission.
    rewrite Hu, Hm. simpl.
    rewrite (Hq db eq_refl g Hg Ha Ht), (Hperm db eq_refl g eq_refl), Ht.
    simpl. unfold GroupViewSet.members_add.
    by rewrite (alter_lookup_insert _ _ _ _ Hg). }
  rewrite E1. simpl. split; [done|].
  assert (Hg1 : groups db1 !! pk = Some g1) by apply lookup_insert_eq.
  split; [exists g1; split; [done | simpl; set_solver]|].
  unfold GroupViewSet.leave, get_object,
    IsGroupOwnerOrAdmin.has_object_permission.
  rewrite Hu, Hm. simpl.
  rewrite (Hq db1 eq_refl g1 Hg1 Ha Ht), (Hperm db1 eq_refl g1 eq_refl).
  f_equal. unfold GroupViewSet.members_remove.
  rewrite (alter_lookup_insert _ _ _ _ Hg1).
  unfold db1, set_groups. simpl. rewrite insert_insert_eq.
  replace ((Group.members g ∪ {[uid]}) ∖ {[uid]}) with (Group.members g)
    by set_solver.
  replace (set_group_members (Group.members g) g1) with g
    by (by destruct g).
  rewrite insert_id by done. by destruct db.
Qed.

Lemma group_join_then_leave_witness :
  Request.user (post 2) = Some 2%nat
  ∧ groups team_db !! 4%nat = Some team
  ∧ (2%nat ∉ Group.members team)
  ∧ GroupViewSet.leave (post 2) 4 (GroupViewSet.join (post 2) 4 team_db).2
    = (HTTP_200_OK, team_db).
Proof.
  assert (Hg : groups team_db !! 4%nat = Some team) by (by vm_compute).
  assert (Hn : 2%nat ∉ Group.members team) by (simpl; set_solver).
  split; [reflexivity|]. split; [exact Hg|]. split; [exact Hn|].
  destruct (group_join_then_leave (post 2) 4 team_db 2 team
              eq_refl eq_refl Hg eq_refl eq_refl) as (_ & _ & H);
    [left; simpl; set_solver | exact Hn | exact H].
Defined.

(** For a user who is not staff, the active groups they can list are the
    ones they may read, plus the ones they created: the creator of a
    private group who is neither member nor owner sees it in the list and
    is refused when retrieving it. *)
Theorem group_listed_iff_readable_or_creator (db : DB) (uid pk : nat)
    (g : Group.t) :
  groups db !! pk = Some g →
  Group.is_active g = true →
  user_is_staff db uid = false →
  GroupViewSet.get_queryset db uid !! pk = Some g
  ↔ IsGroupOwnerOrAdmin.has_object_permission db "GET" uid g = true
    ∨ Group.created_by g = uid.
Proof.
  intros Hg Ha Hs.
  rewrite group_get_queryset_Some, Hs.
  unfold IsGroupOwnerOrAdmin.has_object_permission. simpl.
  rewrite Hs, orb_false_r.
  rewrite (orb_true_iff _ (bool_decide (Group.created_by g = uid))).
  rewrite bool_decide_eq_true. split.
  - intros (_ & _ & [?|?]); done.
  - intros H. split; [done|]. split; [done|]. by right.
Qed.

Lemma group_listed_iff_readable_or_creator_witness :
  groups board_db !! 4%nat = Some board
  ∧ user_is_staff board_db 1 = false
  ∧ GroupViewSet.get_queryset board_db 1 !! 4%nat = Some board
  ∧ IsGroupOwnerOrAdmin.has_object_permission board_db "GET" 1 board = false.
Proof.
  assert (Hg : groups board_db !! 4%nat = Some board) by (by vm_compute).
  split; [exact Hg|]. split; [reflexivity|].
  split; [|reflexivity].
  apply (group_listed_iff_readable_or_creator board_db 1 4 board Hg);
    [reflexivity | reflexivity | by right].
Defined.

(** ** Media *)

(** Whatever a user finds in the media queryset they may also change or
    delete: staff see everything and may write everything, everybody else
    sees only their own uploads. *)
Theorem media_listed_is_writable (media : gmap nat Media.t) (db : DB)
    (uid pk : nat) (m : Media.t) (method : string) :
  MediaViewSet.get_queryset media db uid !! pk = Some m →
  media !! pk = Some m
  ∧ (user_is_staff db uid = false → Media.uploaded_by m = uid)
  ∧ IsMediaOwnerOrAdmin.has_object_permission db method uid m = true.
Proof.
  unfold MediaViewSet.get_queryset,
    IsMediaOwnerOrAdmin.has_object_permission.
  destruct (user_is_staff db uid) eqn:Hs.
  - intros H. split; [done|]. split; [done|]. by destruct (safe_method _).
  - rewrite map_lookup_filter_Some. simpl. intros [H Hu].
    split; [done|]. split; [done|].
    destruct (safe_method _); [done|]. by apply bool_decide_eq_true.
Qed.

Lemma media_listed_is_writable_witness :
  MediaViewSet.get_queryset photos party_db 1 !! 1%nat = Some photo
  ∧ IsMediaOwnerOrAdmin.has_object_permission party_db "DELETE" 1 photo
    = true
  ∧ MediaViewSet.get_queryset photos party_db 2 !! 1%nat = None.
Proof.
  assert (Hq : MediaViewSet.get_queryset photos party_db 1 !! 1%nat
               = Some photo) by (by vm_compute).
  split; [exact Hq|].
  split; [|by vm_compute].
  apply (media_listed_is_writable photos party_db 1 1 photo "DELETE" Hq).
Defined.

(** ** The client address *)

From Stdlib Require Import Ascii.

Lemma index_comma_cons (c : Ascii.ascii) (s : string) :
  String.index 0 "," (String c s)
  = if Ascii.ascii_dec "," c then Some 0%nat
    else match String.index 0 "," s with
         | Some n => Some (S n)
         | None => None
         end.
Proof.
  cbn [String.index String.prefix].
  destruct (Ascii.ascii_dec "," c); [by destruct s | done].
Qed.

Lemma first_comma_cons (c : Ascii.ascii) (s : string) :
  c ≠ ","%char → first_comma (String c s) = String c (first_comma s).
Proof.
  intros Hc. unfold first_comma. rewrite index_comma_cons.
  destruct (Ascii.ascii_dec "," c) as [E|_]; [by symmetry in E|].
  by destruct (String.index 0 "," s).
Qed.

Lemma first_comma_split (s : string) :
  ∃ rest,
    s = (first_comma s ++ rest)%string
    ∧ (rest = ""%string ∨ ∃ r, rest = String "," r)
    ∧ String.index 0 "," (first_comma s) = None.
Proof.
  induction s as [|c s (rest & Hs & Hr & Hi)].
  - exists ""%string. split; [done|]. split; [by left | done].
  - destruct (Ascii.ascii_dec c ",") as [->|Hc].
    + exists (String "," s). unfold first_comma. rewrite index_comma_cons.
      destruct (Ascii.ascii_dec "," ","); [|done].
      split; [done|]. split; [right; by exists s | done].
    + exists rest. rewrite (first_comma_cons c s Hc).
      split; [rewrite Hs at 1; reflexivity|]. split; [done|].
      rewrite index_comma_cons.
      destruct (Ascii.ascii_dec "," c) as [E|_]; [by symmetry in E|].
      by rewrite Hi.
Qed.

(** With a non-empty X-Forwarded-For header, [get_client_ip] is the text
    of the header before its first comma (the whole header when there is
    none): it contains no comma itself and is not trimmed; REMOTE_ADDR is
    not consulted. *)
Theorem get_client_ip_forwarded (request : Request.t) (x : string) :
  Request.HTTP_X_FORWARDED_FOR request = Some x →
  x ≠ ""%string →
  ∃ ip rest,
    get_client_ip request = Some ip
    ∧ x = (ip ++ rest)%string
    ∧ (rest = ""%string ∨ ∃ r, rest = String "," r)
    ∧ String.index 0 "," ip = None.
Proof.
  intros Hx Hne. unfold get_client_ip. rewrite Hx.
  destruct (String.eqb_spec x ""); [done|].
  destruct (first_comma_split x) as (rest & Hs & Hr & Hi).
  by exists (first_comma x), rest.
Qed.

Lemma get_client_ip_forwarded_witness :
  Request.HTTP_X_FORWARDED_FOR forwarded = Some "10.1.1.1, 10.2.2.2"%string
  ∧ get_client_ip forwarded = Some "10.1.1.1"%string
  ∧ ∃ ip rest, get_client_ip forwarded = Some ip
               ∧ "10.1.1.1, 10.2.2.2"%string = (ip ++ rest)%string.
Proof.
  split; [reflexivity|]. split; [reflexivity|].
  destruct (get_client_ip_forwarded forwarded "10.1.1.1, 10.2.2.2"
              eq_refl) as (ip & rest & Hip & Hs & _); [done|].
  by exists ip, rest.
Defined.
